(** * pypeman: nodes and the remote-admin command layer

    A shallow embedding of [pypeman/nodes.py] and
    [pypeman/plugins/remoteadmin/views.py].

    Python values are an inductive type, exceptions are the [Raise] branch
    of [outcome], and the handlers of [views.py] run in a small
    state-and-exception monad over the web socket they write to and the
    list of channels they read.  The [json] module is modelled by an
    executable printer and scanner. *)

From Stdlib Require Import String Ascii ZArith NArith List Lia Bool Arith.
From Stdlib Require Import DecimalString DecimalN DecimalPos DecimalFacts.
Import ListNotations.
Open Scope string_scope.

(* ================================================================== *)
(** * Python values, exceptions and outcomes *)
(* ================================================================== *)

(** The values that travel through [views.py]: what [json.loads] builds
    and [json.dumps] accepts.  A dict is an association list in insertion
    order with string keys.  A float is kept as the text that denotes it:
    the model does no arithmetic on floats. *)
#[warnings="-register-all"]
Inductive pyval : Type :=
| PyNone
| PyBool (b : bool)
| PyInt (z : Z)
| PyFloat (text : string)
| PyStr (s : string)
| PyList (l : list pyval)
| PyDict (d : list (string * pyval)).

Definition pydict : Type := list (string * pyval).

(** Subclasses of [Exception] the code can meet. *)
Inductive exn : Type :=
| KeyError (key : pyval)
| IndexError (msg : string)
| TypeError (msg : string)
| AttributeError (msg : string)
| ValueError (msg : string)
| JSONDecodeError (msg : string)
| Exception_ (msg : string)
| Dropped
| Break.

Inductive outcome (A : Type) : Type :=
| Ok (a : A)
| Raise (e : exn).
Arguments Ok {A} a.
Arguments Raise {A} e.

Definition obind {A B} (x : outcome A) (f : A -> outcome B) : outcome B :=
  match x with
  | Ok a => f a
  | Raise e => Raise e
  end.

Declare Scope outcome_scope.
Delimit Scope outcome_scope with outcome.
Notation "'let*' x ':=' c 'in' k" := (obind c (fun x => k))
  (at level 10, x pattern, c at level 100, k at level 200) : outcome_scope.
Open Scope outcome_scope.

(** The double quote, and a helper to write JSON texts with apostrophes. *)
Definition dquote : ascii := "034"%char.

Fixpoint q (s : string) : string :=
  match s with
  | EmptyString => EmptyString
  | String c s' => String (if (c =? "'")%char then dquote else c) (q s')
  end.

(* ------------------------------------------------------------------ *)
(** ** Dict operations *)
(* ------------------------------------------------------------------ *)

Section Dict.
Context {V : Type}.

(** [d.get(k)] *)
Fixpoint dict_get (k : string) (d : list (string * V)) : option V :=
  match d with
  | [] => None
  | (k', v) :: d' => if (k' =? k)%string then Some v else dict_get k d'
  end.

(** [d[k] = v]: an existing key keeps its position. *)
Fixpoint dict_set (k : string) (v : V) (d : list (string * V))
  : list (string * V) :=
  match d with
  | [] => [(k, v)]
  | (k', v') :: d' =>
      if (k' =? k)%string then (k, v) :: d' else (k', v') :: dict_set k v d'
  end.

(** The dict left after [d.pop(k)]. *)
Fixpoint dict_remove (k : string) (d : list (string * V))
  : list (string * V) :=
  match d with
  | [] => []
  | (k', v) :: d' =>
      if (k' =? k)%string then d' else (k', v) :: dict_remove k d'
  end.

(** [dict(pairs)]: later pairs overwrite earlier ones. *)
Definition dict_of_pairs (ps : list (string * V)) : list (string * V) :=
  fold_left (fun d kv => dict_set (fst kv) (snd kv) d) ps [].
End Dict.

(* ================================================================== *)
(** * The [json] module *)
(* ================================================================== *)

(** The model reads a text as a sequence of characters with code points 0
    to 255.  Two things are approximate: a float is printed back as the
    text it was read from, where Python prints the shortest text that
    denotes the same number; and a [\u] escape above [00ff] is read as a
    question mark, the strings of the model having no such character. *)

(** ** [json.dumps] with the default separators and [ensure_ascii] *)

Definition hex_digit (n : N) : ascii :=
  match n with
  | 0 => "0" | 1 => "1" | 2 => "2" | 3 => "3" | 4 => "4" | 5 => "5"
  | 6 => "6" | 7 => "7" | 8 => "8" | 9 => "9" | 10 => "a" | 11 => "b"
  | 12 => "c" | 13 => "d" | 14 => "e" | _ => "f"
  end%N%char.

Definition backslash : ascii := "092"%char.

Definition escape_char (c : ascii) : string :=
  let n := N_of_ascii c in
  if (c =? dquote)%char then String backslash (String dquote "")
  else if (c =? backslash)%char then String backslash (String backslash "")
  else if (n =? 10)%N then String backslash "n"
  else if (n =? 13)%N then String backslash "r"
  else if (n =? 9)%N then String backslash "t"
  else if (n =? 8)%N then String backslash "b"
  else if (n =? 12)%N then String backslash "f"
  else if ((n <? 32) || (126 <? n))%N then
    String backslash
      (String "u" (String "0" (String "0"
         (String (hex_digit (n / 16)) (String (hex_digit (n mod 16)) "")))))
  else String c "".

Fixpoint escape (s : string) : string :=
  match s with
  | EmptyString => EmptyString
  | String c s' => escape_char c ++ escape s'
  end.

Definition dumps_str (s : string) : string :=
  String dquote (escape s ++ String dquote "").

Definition dumps_int (z : Z) : string :=
  match z with
  | Z0 => "0"
  | Zpos p => NilEmpty.string_of_uint (Pos.to_uint p)
  | Zneg p => String "-" (NilEmpty.string_of_uint (Pos.to_uint p))
  end.

Fixpoint dumps (v : pyval) : string :=
  match v with
  | PyNone => "null"
  | PyBool true => "true"
  | PyBool false => "false"
  | PyInt z => dumps_int z
  | PyFloat t => t
  | PyStr s => dumps_str s
  | PyList l =>
      "[" ++
      (fix elems (l : list pyval) : string :=
         match l with
         | [] => ""
         | x :: xs =>
             dumps x ++ match xs with [] => "" | _ :: _ => ", " ++ elems xs end
         end) l ++ "]"
  | PyDict d =>
      "{" ++
      (fix members (d : list (string * pyval)) : string :=
         match d with
         | [] => ""
         | (k, x) :: xs =>
             dumps_str k ++ ": " ++ dumps x ++
             match xs with [] => "" | _ :: _ => ", " ++ members xs end
         end) d ++ "}"
  end.

Fixpoint dumps_elems (l : list pyval) : string :=
  match l with
  | [] => ""
  | x :: xs =>
      dumps x ++ match xs with [] => "" | _ :: _ => ", " ++ dumps_elems xs end
  end.

Fixpoint dumps_members (d : list (string * pyval)) : string :=
  match d with
  | [] => ""
  | (k, x) :: xs =>
      dumps_str k ++ ": " ++ dumps x ++
      match xs with [] => "" | _ :: _ => ", " ++ dumps_members xs end
  end.

(** ** [json.loads] *)

Definition is_ws (c : ascii) : bool :=
  let n := N_of_ascii c in
  ((n =? 32) || (n =? 9) || (n =? 10) || (n =? 13))%N.

Fixpoint skip_ws (s : string) : string :=
  match s with
  | String c s' => if is_ws c then skip_ws s' else s
  | EmptyString => EmptyString
  end.

Definition hex_val (c : ascii) : option N :=
  let n := N_of_ascii c in
  if ((48 <=? n) && (n <=? 57))%N then Some (n - 48)%N
  else if ((97 <=? n) && (n <=? 102))%N then Some (n - 87)%N
  else if ((65 <=? n) && (n <=? 70))%N then Some (n - 55)%N
  else None.

Definition hex4 (a b c d : ascii) : option N :=
  match hex_val a, hex_val b, hex_val c, hex_val d with
  | Some x, Some y, Some z, Some w => Some (((x * 16 + y) * 16 + z) * 16 + w)%N
  | _, _, _, _ => None
  end.

Definition simple_escape (e : ascii) : option ascii :=
  if (e =? dquote)%char then Some dquote
  else if (e =? backslash)%char then Some backslash
  else if (e =? "/")%char then Some "/"%char
  else if (e =? "b")%char then Some "008"%char
  else if (e =? "f")%char then Some "012"%char
  else if (e =? "n")%char then Some "010"%char
  else if (e =? "r")%char then Some "013"%char
  else if (e =? "t")%char then Some "009"%char
  else None.

Definition bad (msg : string) {A} : outcome A := Raise (JSONDecodeError msg).

(** The body of a string literal, after its opening quote: the decoded
    string and the text after the closing quote. *)
Fixpoint scan_string (s : string) : outcome (string * string) :=
  match s with
  | EmptyString => bad "Unterminated string starting at"
  | String c s' =>
      if (c =? dquote)%char then Ok (EmptyString, s')
      else if (c =? backslash)%char then
        match s' with
        | EmptyString => bad "Unterminated string starting at"
        | String e s2 =>
            if (e =? "u")%char then
              match s2 with
              | String h1 (String h2 (String h3 (String h4 s3))) =>
                  match hex4 h1 h2 h3 h4 with
                  | Some n =>
                      match scan_string s3 with
                      | Ok (u, r) =>
                          Ok (String (if (n <? 256)%N then ascii_of_N n
                                      else "?"%char) u, r)
                      | Raise x => Raise x
                      end
                  | None => bad "Invalid \uXXXX escape"
                  end
              | _ => bad "Invalid \uXXXX escape"
              end
            else
              match simple_escape e with
              | Some c' =>
                  match scan_string s2 with
                  | Ok (u, r) => Ok (String c' u, r)
                  | Raise x => Raise x
                  end
              | None => bad "Invalid \escape"
              end
        end
      else if (N_of_ascii c <? 32)%N then bad "Invalid control character at"
      else
        match scan_string s' with
        | Ok (u, r) => Ok (String c u, r)
        | Raise x => Raise x
        end
  end.

Definition digit_of (c : ascii) : option (Decimal.uint -> Decimal.uint) :=
  match c with
  | "0" => Some Decimal.D0 | "1" => Some Decimal.D1 | "2" => Some Decimal.D2
  | "3" => Some Decimal.D3 | "4" => Some Decimal.D4 | "5" => Some Decimal.D5
  | "6" => Some Decimal.D6 | "7" => Some Decimal.D7 | "8" => Some Decimal.D8
  | "9" => Some Decimal.D9 | _ => None
  end%char.

Fixpoint scan_digits (s : string) : Decimal.uint * string :=
  match s with
  | EmptyString => (Decimal.Nil, EmptyString)
  | String c s' =>
      match digit_of c with
      | Some D => let (d, r) := scan_digits s' in (D d, r)
      | None => (Decimal.Nil, s)
      end
  end.

(** [s] without its first character when that is [c]. *)
Definition after (c : ascii) (s : string) : option string :=
  match s with
  | String c' r => if (c' =? c)%char then Some r else None
  | EmptyString => None
  end.

(** The integer part of a number: [0] or a digit [1-9] followed by digits. *)
Definition scan_nat (s : string) : outcome (N * string) :=
  match after "0" s with
  | Some r => Ok (0%N, r)
  | None =>
      match scan_digits s with
      | (Decimal.Nil, _) => bad "Expecting value"
      | (d, r) => Ok (N.of_uint d, r)
      end
  end.

(** The text after a fraction [.ddd], when [s] starts with one. *)
Definition scan_frac (s : string) : option string :=
  match after "." s with
  | Some t =>
      match scan_digits t with
      | (Decimal.Nil, _) => None
      | (_, r) => Some r
      end
  | None => None
  end.

(** The text after an exponent [e+dd], when [s] starts with one. *)
Definition scan_exp (s : string) : option string :=
  match s with
  | String c t =>
      if ((c =? "e") || (c =? "E"))%char then
        let t1 := match after "+" t with
                  | Some u => u
                  | None => match after "-" t with Some u => u | None => t end
                  end in
        match scan_digits t1 with
        | (Decimal.Nil, _) => None
        | (_, r) => Some r
        end
      else None
  | EmptyString => None
  end.

Fixpoint strip_prefix (lit s : string) : option string :=
  match lit, s with
  | EmptyString, _ => Some s
  | String a lit', String b s' =>
      if (a =? b)%char then strip_prefix lit' s' else None
  | String _ _, EmptyString => None
  end.

(** A literal name: [null], [true] or [false]. *)
Definition expect (lit : string) (v : pyval) (s : string)
  : outcome (pyval * string) :=
  match strip_prefix lit s with
  | Some r => Ok (v, r)
  | None => bad "Expecting value"
  end.

(** The names of the floats that are no numbers. *)
Definition scan_constant (s : string) : outcome (pyval * string) :=
  match strip_prefix "NaN" s with
  | Some r => Ok (PyFloat "NaN", r)
  | None =>
      match strip_prefix "Infinity" s with
      | Some r => Ok (PyFloat "Infinity", r)
      | None =>
          match strip_prefix "-Infinity" s with
          | Some r => Ok (PyFloat "-Infinity", r)
          | None => bad "Expecting value"
          end
      end
  end.

(** A number: an integer when it has neither fraction nor exponent, a
    float otherwise. *)
Definition scan_number (s : string) : outcome (pyval * string) :=
  let s1 := match after "-" s with Some t => t | None => s end in
  match scan_nat s1 with
  | Ok (n, r) =>
      let r1 := match scan_frac r with Some r' => r' | None => r end in
      let r2 := match scan_exp r1 with Some r' => r' | None => r1 end in
      if (String.length r2 <? String.length r)%nat
      then Ok (PyFloat (substring 0 (String.length s - String.length r2) s), r2)
      else Ok (PyInt (match after "-" s with
                      | Some _ => - Z.of_N n
                      | None => Z.of_N n
                      end), r)
  | Raise _ => scan_constant s
  end.

(** Recursion of the scanner is bounded by [fuel]; [fuel_for] is enough for
    every text (see [json_loads_raises]). *)
Definition out_of_fuel {A} : outcome A := Raise (Exception_ "fuel").

Fixpoint scan_value (fuel : nat) (s : string) : outcome (pyval * string) :=
  match fuel with
  | O => out_of_fuel
  | S n =>
      match s with
      | EmptyString => bad "Expecting value"
      | String c s' =>
          if (c =? dquote)%char then
            match scan_string s' with
            | Ok (u, r) => Ok (PyStr u, r)
            | Raise x => Raise x
            end
          else if (c =? "{")%char then
            match after "}" (skip_ws s') with
            | Some r => Ok (PyDict [], r)
            | None =>
                match scan_members n (skip_ws s') with
                | Ok (ps, r) => Ok (PyDict (dict_of_pairs ps), r)
                | Raise x => Raise x
                end
            end
          else if (c =? "[")%char then
            match after "]" (skip_ws s') with
            | Some r => Ok (PyList [], r)
            | None =>
                match scan_elems n (skip_ws s') with
                | Ok (vs, r) => Ok (PyList vs, r)
                | Raise x => Raise x
                end
            end
          else if (c =? "n")%char then expect "null" PyNone s
          else if (c =? "t")%char then expect "true" (PyBool true) s
          else if (c =? "f")%char then expect "false" (PyBool false) s
          else scan_number s
      end
  end

with scan_elems (fuel : nat) (s : string) : outcome (list pyval * string) :=
  match fuel with
  | O => out_of_fuel
  | S n =>
      match scan_value n s with
      | Raise x => Raise x
      | Ok (v, r) =>
          match after "," (skip_ws r) with
          | Some r1 =>
              match scan_elems n (skip_ws r1) with
              | Ok (vs, r2) => Ok (v :: vs, r2)
              | Raise x => Raise x
              end
          | None =>
              match after "]" (skip_ws r) with
              | Some r1 => Ok ([v], r1)
              | None => bad "Expecting ',' delimiter"
              end
          end
      end
  end

with scan_members (fuel : nat) (s : string)
  : outcome (list (string * pyval) * string) :=
  match fuel with
  | O => out_of_fuel
  | S n =>
      match after dquote s with
      | None => bad "Expecting property name enclosed in double quotes"
      | Some s' =>
          match scan_string s' with
          | Raise x => Raise x
          | Ok (k, r) =>
              match after ":" (skip_ws r) with
              | None => bad "Expecting ':' delimiter"
              | Some r1 =>
                  match scan_value n (skip_ws r1) with
                  | Raise x => Raise x
                  | Ok (v, r2) =>
                      match after "," (skip_ws r2) with
                      | Some r3 =>
                          match scan_members n (skip_ws r3) with
                          | Ok (ps, r4) => Ok ((k, v) :: ps, r4)
                          | Raise x => Raise x
                          end
                      | None =>
                          match after "}" (skip_ws r2) with
                          | Some r3 => Ok ([(k, v)], r3)
                          | None => bad "Expecting ',' delimiter"
                          end
                      end
                  end
              end
          end
      end
  end.

Definition fuel_for (s : string) : nat := 2 * String.length s + 2.

(** [json.loads(s)] for a [str] argument. *)
Definition json_loads (s : string) : outcome pyval :=
  match scan_value (fuel_for s) (skip_ws s) with
  | Raise x => Raise x
  | Ok (v, r) =>
      match skip_ws r with
      | EmptyString => Ok v
      | _ => bad "Extra data"
      end
  end.

Definition json_dumps (v : pyval) : string := dumps v.

(** A value is well formed when no dict in it repeats a key, which holds
    of every value Python builds, and when it holds no float, whose print
    is approximate. *)
Fixpoint keys_fresh (k : string) (d : list (string * pyval)) : bool :=
  match d with
  | [] => true
  | (k', _) :: d' => negb (k' =? k)%string && keys_fresh k d'
  end.

Fixpoint wf (v : pyval) : bool :=
  match v with
  | PyList l =>
      (fix all (l : list pyval) : bool :=
         match l with [] => true | x :: xs => wf x && all xs end) l
  | PyDict d =>
      (fix all (d : list (string * pyval)) : bool :=
         match d with
         | [] => true
         | (k, x) :: xs => keys_fresh k xs && wf x && all xs
         end) d
  | PyFloat _ => false
  | _ => true
  end.

Fixpoint wf_elems (l : list pyval) : bool :=
  match l with [] => true | x :: xs => wf x && wf_elems xs end.

Fixpoint wf_members (d : list (string * pyval)) : bool :=
  match d with
  | [] => true
  | (k, x) :: xs => keys_fresh k xs && wf x && wf_members xs
  end.

(* ------------------------------------------------------------------ *)
(** ** Notions used to reason about the scanner *)
(* ------------------------------------------------------------------ *)

(** The characters that carry a number on: a digit, a point, an [e]. *)
Definition number_char (c : ascii) : bool :=
  match digit_of c with
  | Some _ => true
  | None => ((c =? ".") || (c =? "e") || (c =? "E"))%char
  end.

(** The text after a printed number does not carry the number on. *)
Definition number_end (s : string) : Prop :=
  match s with
  | EmptyString => True
  | String c _ => number_char c = false
  end.

(** The characters a printed value can start with. *)
Definition value_head (c : ascii) : bool :=
  match digit_of c with
  | Some _ => true
  | None =>
      (c =? dquote)%char || (c =? "{")%char || (c =? "[")%char
      || (c =? "n")%char || (c =? "t")%char || (c =? "f")%char
      || (c =? "-")%char
  end.

(** Fuel that scanning the print of a value takes. *)
Fixpoint need (v : pyval) : nat :=
  match v with
  | PyList l =>
      S ((fix go (l : list pyval) : nat :=
            match l with [] => 0 | x :: xs => S (need x + go xs) end) l)
  | PyDict d =>
      S ((fix go (d : list (string * pyval)) : nat :=
            match d with [] => 0 | (_, x) :: xs => S (need x + go xs) end) d)
  | _ => 1
  end.

Fixpoint need_elems (l : list pyval) : nat :=
  match l with [] => 0 | x :: xs => S (need x + need_elems xs) end.

Fixpoint need_members (d : list (string * pyval)) : nat :=
  match d with [] => 0 | (_, x) :: xs => S (need x + need_members xs) end.

(** No key of [d] occurs in [acc]. *)
Fixpoint apart (acc d : list (string * pyval)) : bool :=
  match d with
  | [] => true
  | (k, _) :: xs => keys_fresh k acc && apart acc xs
  end.

(** The exception is a [json.JSONDecodeError]. *)
Definition decode_error (e : exn) : Prop := exists msg, e = JSONDecodeError msg.

(** An [Ok] result leaves less text than it was given; a [Raise] is a
    decode error when the fuel is twice the length of the text and
    [slack] more. *)
Definition scanned {A} (slack : nat) (n : nat) (s : string)
           (res : outcome (A * string)) : Prop :=
  match res with
  | Ok (_, r) => String.length r < String.length s
  | Raise e => 2 * String.length s + slack < n -> decode_error e
  end.

(** The characters a JSON value can end with: a digit, a quote, a closing
    bracket or brace, and the last letter of [true], [false], [null],
    [NaN] and [Infinity]. *)
Definition closer (c : ascii) : bool :=
  match digit_of c with
  | Some _ => true
  | None =>
      (c =? dquote)%char || (c =? "}")%char || (c =? "]")%char
      || (c =? "e")%char || (c =? "l")%char || (c =? "N")%char
      || (c =? "y")%char
  end.

(** The last character of a text. *)
Fixpoint last_char (s : string) : option ascii :=
  match s with
  | EmptyString => None
  | String c s' =>
      match last_char s' with
      | Some x => Some x
      | None => Some c
      end
  end.

(** The scanner, given [s], stopped before [r], just after a character
    a value can end with. *)
Definition closes (r s : string) : Prop :=
  exists pre c, s = pre ++ String c r /\ closer c = true.

(** Every character is a printable ASCII character, from the space to
    the tilde. *)
Fixpoint printable_ascii (s : string) : bool :=
  match s with
  | EmptyString => true
  | String c s' =>
      let n := N_of_ascii c in
      (32 <=? n)%N && (n <=? 126)%N && printable_ascii s'
  end.

(* ------------------------------------------------------------------ *)
(** ** Python operations on values used by the handlers *)
(* ------------------------------------------------------------------ *)

Definition type_name (v : pyval) : string :=
  match v with
  | PyNone => "NoneType" | PyBool _ => "bool" | PyInt _ => "int"
  | PyFloat _ => "float" | PyStr _ => "str" | PyList _ => "list" | PyDict _ => "dict"
  end.

Definition no_attribute (v : pyval) (attr : string) : exn :=
  AttributeError ("'" ++ type_name v ++ "' object has no attribute '" ++ attr ++ "'").

Definition none_has_no (attr : string) : exn := no_attribute PyNone attr.

(** [v == s] for a string literal [s]. *)
Definition py_eq_str (v : pyval) (s : string) : bool :=
  match v with
  | PyStr s' => (s' =? s)%string
  | _ => false
  end.

(** [v is None] *)
Definition is_None (v : pyval) : bool :=
  match v with PyNone => true | _ => false end.

(** [v.pop(k)] for a string [k]: the popped value and the object left. *)
Definition py_pop (v : pyval) (k : string) : outcome (pyval * pyval) :=
  match v with
  | PyDict d =>
      match dict_get k d with
      | Some x => Ok (x, PyDict (dict_remove k d))
      | None => Raise (KeyError (PyStr k))
      end
  | PyList _ => Raise (TypeError "'str' object cannot be interpreted as an integer")
  | _ => Raise (no_attribute v "pop")
  end.

(** [v.get(k, default)] *)
Definition py_get (v : pyval) (k : string) (default : pyval) : outcome pyval :=
  match v with
  | PyDict d =>
      match dict_get k d with
      | Some x => Ok x
      | None => Ok default
      end
  | _ => Raise (no_attribute v "get")
  end.

(** [v[i]] for a literal index [i >= 0]. *)
Definition py_index (v : pyval) (i : nat) : outcome pyval :=
  match v with
  | PyList l =>
      match nth_error l i with
      | Some x => Ok x
      | None => Raise (IndexError "list index out of range")
      end
  | PyStr s =>
      match String.get i s with
      | Some c => Ok (PyStr (String c ""))
      | None => Raise (IndexError "string index out of range")
      end
  | PyDict _ => Raise (KeyError (PyInt (Z.of_nat i)))
  | _ => Raise (TypeError ("'" ++ type_name v ++ "' object is not subscriptable"))
  end.

(** [v[k]] for a string key [k]. *)
Definition py_getitem (v : pyval) (k : string) : outcome pyval :=
  match v with
  | PyDict d =>
      match dict_get k d with
      | Some x => Ok x
      | None => Raise (KeyError (PyStr k))
      end
  | PyList _ => Raise (TypeError "list indices must be integers or slices, not str")
  | PyStr _ => Raise (TypeError "string indices must be integers")
  | _ => Raise (TypeError ("'" ++ type_name v ++ "' object is not subscriptable"))
  end.

(** [json.loads(v)]: the argument must be a [str]. *)
Definition py_json_loads (v : pyval) : outcome pyval :=
  match v with
  | PyStr s => json_loads s
  | _ => Raise (TypeError ("the JSON object must be str, bytes or bytearray, not "
                           ++ type_name v))
  end.

(* ================================================================== *)
(** * [pypeman/nodes.py] *)
(* ================================================================== *)

Module nodes.

(** [pypeman.message.Message], of which the nodes touch the payload and
    the content type.  A payload is a JSON text ([PyStr]) or a decoded
    value. *)
Record Message : Type := {
  payload : pyval;
  content_type : string;
  meta : pydict
}.

Definition set_payload (v : pyval) (msg : Message) : Message :=
  {| payload := v; content_type := content_type msg; meta := meta msg |}.

Definition set_content_type (t : string) (msg : Message) : Message :=
  {| payload := payload msg; content_type := t; meta := meta msg |}.

(** A node class is its [process] method; [handle] is inherited from
    [BaseNode] unless the class overrides it. *)
Definition process_fn : Type := Message -> outcome Message.

(** [BaseNode.handle]: await the coroutine made of [self.process]. *)
Definition BaseNode_handle (process : process_fn) (msg : Message)
  : outcome Message :=
  let* result := process msg in Ok result.

Definition BaseNode_process : process_fn := fun msg => Ok msg.

Definition RaiseError_process : process_fn :=
  fun _ => Raise (Exception_ "Test node").

Definition DropNode_process : process_fn := fun _ => Raise Dropped.

Definition BreakNode_process : process_fn := fun _ => Raise Break.

Definition JsonToPython_process : process_fn := fun msg =>
  let* v := py_json_loads (payload msg) in
  let msg := set_payload v msg in
  let msg := set_content_type "application/python" msg in
  Ok msg.

Definition PythonToJson_process : process_fn := fun msg =>
  let msg := set_payload (PyStr (json_dumps (payload msg))) msg in
  let msg := set_content_type "application/json" msg in
  Ok msg.

(** The chain of the JSON-decode stage followed by the JSON-encode stage:
    the second [handle] is given the message the first returned. *)
Definition decode_then_encode (msg : Message) : outcome Message :=
  let* decoded := BaseNode_handle JsonToPython_process msg in
  BaseNode_handle PythonToJson_process decoded.

(** The chain of the JSON-encode stage followed by the JSON-decode stage. *)
Definition encode_then_decode (msg : Message) : outcome Message :=
  let* encoded := BaseNode_handle PythonToJson_process msg in
  BaseNode_handle JsonToPython_process encoded.

(** ** [ThreadNode]

    [ThreadNode.handle] opens a [ThreadPoolExecutor(max_workers=1)], hands
    [self.process] and the message to it through [loop.run_in_executor],
    and is suspended until the future is done.  Several calls of [handle]
    on the same node may be in flight at once, so the calls are modelled
    as a list of invocations that advance by interleaved events. *)

Record Executor : Type := {
  max_workers : nat;
  work_queue : list Message;   (* submitted, not yet picked up *)
  running : list Message       (* being processed by a worker thread *)
}.

Definition ThreadPoolExecutor (n : nat) : Executor :=
  {| max_workers := n; work_queue := []; running := [] |}.

Definition submit (ex : Executor) (msg : Message) : Executor :=
  {| max_workers := max_workers ex;
     work_queue := work_queue ex ++ [msg];
     running := running ex |}.

(** A worker thread picks up the next item when fewer than [max_workers]
    threads are busy. *)
Definition worker_take (ex : Executor) : option Executor :=
  match work_queue ex with
  | msg :: rest =>
      if (List.length (running ex) <? max_workers ex)%nat
      then Some {| max_workers := max_workers ex;
                   work_queue := rest;
                   running := running ex ++ [msg] |}
      else None
  | [] => None
  end.

(** A busy worker comes to the end of its work item. *)
Definition worker_done (ex : Executor) : option (Message * Executor) :=
  match running ex with
  | msg :: rest =>
      Some (msg, {| max_workers := max_workers ex;
                    work_queue := work_queue ex;
                    running := rest |})
  | [] => None
  end.

(** One call of [handle]: not yet started, suspended inside the [with]
    block on the future, or returned. *)
Inductive Invocation : Type :=
| Called (msg : Message)
| Awaiting (msg : Message) (executor : Executor)
           (future : option (outcome Message))
| Returned (msg : Message) (result : outcome Message).

Inductive Event : Type :=
| Call (msg : Message)   (* a caller invokes [handle(msg)] *)
| Enter (i : nat)        (* the coroutine runs up to [yield from] *)
| Take (i : nat)         (* the worker starts [process(msg)] *)
| Done (i : nat)         (* the worker ends it and sets the future *)
| Resume (i : nat).      (* the coroutine leaves [with] and returns *)

Section ThreadNode.
Variable process : process_fn.

Definition enter (x : Invocation) : option Invocation :=
  match x with
  | Called msg =>
      Some (Awaiting msg (submit (ThreadPoolExecutor 1) msg) None)
  | _ => None
  end.

Definition take (x : Invocation) : option Invocation :=
  match x with
  | Awaiting msg ex None =>
      match worker_take ex with
      | Some ex' => Some (Awaiting msg ex' None)
      | None => None
      end
  | _ => None
  end.

Definition done (x : Invocation) : option Invocation :=
  match x with
  | Awaiting msg ex None =>
      match worker_done ex with
      | Some (item, ex') => Some (Awaiting msg ex' (Some (process item)))
      | None => None
      end
  | _ => None
  end.

Definition resume (x : Invocation) : option Invocation :=
  match x with
  | Awaiting msg ex (Some result) => Some (Returned msg result)
  | _ => None
  end.

Fixpoint at_index (f : Invocation -> option Invocation) (i : nat)
         (st : list Invocation) : option (list Invocation) :=
  match st, i with
  | [], _ => None
  | x :: rest, O =>
      match f x with
      | Some x' => Some (x' :: rest)
      | None => None
      end
  | x :: rest, S j =>
      match at_index f j rest with
      | Some rest' => Some (x :: rest')
      | None => None
      end
  end.

Definition fire (ev : Event) (st : list Invocation)
  : option (list Invocation) :=
  match ev with
  | Call msg => Some (st ++ [Called msg])%list
  | Enter i => at_index enter i st
  | Take i => at_index take i st
  | Done i => at_index done i st
  | Resume i => at_index resume i st
  end.

Fixpoint run (evs : list Event) (st : list Invocation)
  : option (list Invocation) :=
  match evs with
  | [] => Some st
  | ev :: rest =>
      match fire ev st with
      | Some st' => run rest st'
      | None => None
      end
  end.

(** Worker threads inside [process] for one invocation, and over all
    invocations of the node: the value of a counter that [process]
    increments on entry and decrements on exit. *)
Definition active (x : Invocation) : nat :=
  match x with
  | Awaiting _ ex _ => List.length (running ex)
  | _ => 0
  end.

Definition counter (st : list Invocation) : nat :=
  list_sum (map active st).



(** What holds of every invocation at every moment: its executor has one
    worker and holds the one work item of that call, queued or running,
    until the future is set with what [process] made of the message. *)
Definition sound (x : Invocation) : Prop :=
  match x with
  | Called _ => True
  | Awaiting msg ex None =>
      max_workers ex = 1 /\
      ((work_queue ex = [msg] /\ running ex = []) \/
       (work_queue ex = [] /\ running ex = [msg]))
  | Awaiting msg ex (Some r) =>
      max_workers ex = 1 /\ work_queue ex = [] /\ running ex = [] /\
      r = process msg
  | Returned msg r => r = process msg
  end.

End ThreadNode.

(** Two calls of [handle] on one node, both inside [process]. *)
Definition two_calls (msg : Message) : list Event :=
  [Call msg; Call msg; Enter 0; Enter 1; Take 0; Take 1].

(** [n] calls of [handle] on one node, each brought inside [process]
    before the next is made. *)
Fixpoint overlapping_calls (n : nat) (msg : Message) : list Event :=
  match n with
  | O => []
  | S k => overlapping_calls k msg ++ [Call msg; Enter k; Take k]
  end.

(** A call whose worker is inside [process]. *)
Definition inside_process (msg : Message) : Invocation :=
  Awaiting msg {| max_workers := 1; work_queue := []; running := [msg] |} None.

End nodes.

(* ================================================================== *)
(** * [pypeman/plugins/remoteadmin/views.py] *)
(* ================================================================== *)

Module views.
Import nodes.

(** ** The objects the handlers work on *)

(** An entry of a search result is a Python dict whose values are JSON
    values or [Message] objects. *)
Inductive entry_val : Type :=
| EVal (v : pyval)
| EMsg (m : Message).

Definition Entry : Type := list (string * entry_val).

(** A stored message: the message and the other fields the store keeps
    with it (identifier, state), which are plain values. *)
Record Stored : Type := {
  fields : pydict;
  message : Message
}.

Record MessageStore : Type := { stored : list Stored }.

(** [pypeman.channels.BaseChannel], as far as the handlers read it:
    [to_dict] and [subchannels] hold what the methods of these names
    return. *)
Record Channel : Type := {
  name : string;
  parent : option string;
  status : Z;
  to_dict : pydict;
  subchannels : pyval;
  message_store : MessageStore
}.

(** [request.rel_url.query] *)
Record Request : Type := { query : list (string * string) }.

(** A web socket response: [is_rpc] tells an [RPCWebSocketResponse] from a
    plain [web.WebSocketResponse], [rpc_data] is the attribute of that name
    ([None] until [set_rpc_attrs] is called) and [sent] the frames sent so
    far, oldest first. *)
Record WebSocket : Type := {
  is_rpc : bool;
  rpc_data : option pyval;
  sent : list string
}.

Definition WebSocketResponse : WebSocket :=
  {| is_rpc := false; rpc_data := None; sent := [] |}.

Definition RPCWebSocketResponse : WebSocket :=
  {| is_rpc := true; rpc_data := None; sent := [] |}.

(** What a handler can reach: the request (the [request] parameter of
    every handler refers to it), the socket it writes to and
    [channels.all_channels]. *)
Record State : Type := {
  request : Request;
  ws : WebSocket;
  all_channels : list Channel
}.

Definition with_ws (w : WebSocket) (st : State) : State :=
  {| request := request st; ws := w; all_channels := all_channels st |}.

Definition with_channels (cs : list Channel) (st : State) : State :=
  {| request := request st; ws := ws st; all_channels := cs |}.

Definition with_request (r : Request) (st : State) : State :=
  {| request := r; ws := ws st; all_channels := all_channels st |}.

(** Arguments of [message_store.search]. *)
Record SearchArgs : Type := {
  start : Z;
  count : Z;
  order_by : string;
  start_dt : option string;
  end_dt : option string;
  text : option string;
  rtext : option string
}.

(** The collaborators of [views.py] whose code is elsewhere: methods of
    channels, messages and stores, [yarl]'s [update_query] and the builtins
    [int] and [repr]. *)
Class Collaborators : Type := {
  (* channel.start() and channel.stop(): outcome and channel afterwards *)
  chan_start : Channel -> outcome unit * Channel;
  chan_stop : Channel -> outcome unit * Channel;
  (* channel.replay(message_id) *)
  chan_replay : Channel -> pyval -> outcome Message;
  (* BaseChannel.status_id_to_str *)
  status_id_to_str : Z -> string;
  (* Message.to_dict(), Message.to_json(), Message.timestamp_str() *)
  msg_to_dict : Message -> pyval;
  msg_to_json : Message -> string;
  msg_timestamp_str : Message -> string;
  (* message_store.get_msg_content(id), message_store.get_preview_str(id) *)
  get_msg_content : MessageStore -> pyval -> outcome Message;
  get_preview_str : MessageStore -> pyval -> outcome Message;
  (* the filtering and ordering a search does before it paginates *)
  store_select : SearchArgs -> list Stored -> list Stored;
  (* the request after request.rel_url.update_query(params); for a URL
     that update_query leaves as it was, the request unchanged *)
  update_query : Request -> pydict -> outcome Request;
  (* int(s) for a str, repr(v) *)
  py_int : string -> outcome Z;
  py_repr : pyval -> string
}.

(** ** The handler monad: state passing with exceptions.  The state
    reached when an exception is raised is kept. *)

Definition M (A : Type) : Type := State -> outcome A * State.

Definition ret {A} (a : A) : M A := fun st => (Ok a, st).

Definition bind {A B} (m : M A) (f : A -> M B) : M B :=
  fun st =>
    match m st with
    | (Ok a, st') => f a st'
    | (Raise e, st') => (Raise e, st')
    end.

Definition raise {A} (e : exn) : M A := fun st => (Raise e, st).

Definition lift {A} (o : outcome A) : M A := fun st => (o, st).

Definition gets {A} (f : State -> A) : M A := fun st => (Ok (f st), st).

Definition modify (f : State -> State) : M unit := fun st => (Ok tt, f st).

Declare Scope handler_scope.
Delimit Scope handler_scope with handler.
Notation "x <- c ;; k" := (bind c (fun x => k))
  (at level 61, c at next level, right associativity) : handler_scope.
Notation "c ;; k" := (bind c (fun _ => k))
  (at level 61, right associativity) : handler_scope.
Open Scope handler_scope.

(** [str(exc)] *)
Definition exn_str {env : Collaborators} (e : exn) : string :=
  match e with
  | KeyError k => py_repr k
  | IndexError m | TypeError m | AttributeError m | ValueError m
  | JSONDecodeError m | Exception_ m => m
  | Dropped | Break => ""
  end.

(** [str(v)], as an f-string formats [v]. *)
Definition py_str {env : Collaborators} (v : pyval) : string :=
  match v with
  | PyStr s => s
  | _ => py_repr v
  end.

Section Handlers.
Context {env : Collaborators}.

(** ** [get_channel] *)
Fixpoint get_channel (channelname : pyval) (chans : list Channel)
  : option Channel :=
  match chans with
  | [] => None
  | chan :: rest =>
      if py_eq_str channelname (name chan) then Some chan
      else get_channel channelname rest
  end.

(** The channel object [get_channel] returned, after a method changed
    it: the first channel of that name is replaced. *)
Fixpoint put_channel (channelname : pyval) (chan' : Channel)
         (chans : list Channel) : list Channel :=
  match chans with
  | [] => []
  | chan :: rest =>
      if py_eq_str channelname (name chan) then chan' :: rest
      else chan :: put_channel channelname chan' rest
  end.

(** [if ws is None: ws = web.WebSocketResponse(); await ws.prepare(request)].
    The handlers that test [if not ws] behave the same, a socket object
    being taken as true. *)
Definition open_ws (ws_arg : option WebSocket) : M unit :=
  match ws_arg with
  | None => modify (with_ws WebSocketResponse)
  | Some w => modify (with_ws w)
  end.

(** [web.WebSocketResponse.send_str] on an open connection. *)
Definition super_send_str (message : string) : M unit :=
  modify (fun st =>
    with_ws {| is_rpc := is_rpc (ws st);
               rpc_data := rpc_data (ws st);
               sent := (sent (ws st) ++ [message])%list |} st).

(** [SuccessResponse(result, id=id)] of [jsonrpcserver], as the dict its
    [str] serializes: the success envelope of JSON-RPC 2.0. *)
Definition SuccessResponse (result id : pyval) : pyval :=
  PyDict [("jsonrpc", PyStr "2.0"); ("result", result); ("id", id)].

(** ** [RPCWebSocketResponse] *)
Definition set_rpc_attrs (request_data : pyval) : M unit :=
  modify (fun st =>
    with_ws {| is_rpc := is_rpc (ws st);
               rpc_data := Some request_data;
               sent := sent (ws st) |} st).

Definition RPC_send_str (message : string) : M unit :=
  result <- lift (json_loads message) ;;
  data <- gets (fun st => rpc_data (ws st)) ;;
  data <- match data with
          | Some d => ret d
          | None => raise (AttributeError
              "'RPCWebSocketResponse' object has no attribute 'rpc_data'")
          end ;;
  id <- lift (py_getitem data "id") ;;
  super_send_str (json_dumps (SuccessResponse result id)).

(** [ws.send_str(message)], dispatched on the class of [ws]. *)
Definition send_str (message : string) : M unit :=
  rpc <- gets (fun st => is_rpc (ws st)) ;;
  if rpc : bool then RPC_send_str message else super_send_str message.

(** ** [list_channels] *)
Fixpoint top_level (chans : list Channel) : list pyval :=
  match chans with
  | [] => []
  | chan :: rest =>
      match parent chan with
      | None =>
          let chan_dict := to_dict chan in
          let chan_dict := dict_set "subchannels" (subchannels chan) chan_dict in
          PyDict chan_dict :: top_level rest
      | Some _ => top_level rest
      end
  end.

Definition list_channels (ws_arg : option WebSocket) : M unit :=
  open_ws ws_arg ;;
  chans <- gets (fun st => top_level (all_channels st)) ;;
  let resp_message := json_dumps (PyList chans) in
  send_str resp_message.

(** ** [start_channel] and [stop_channel] *)
Definition await_method (attr : string)
           (method : Channel -> outcome unit * Channel)
           (channelname : pyval) (chan : option Channel) : M Channel :=
  match chan with
  | None => raise (none_has_no attr)
  | Some c =>
      let (r, c') := method c in
      modify (fun st =>
        with_channels (put_channel channelname c' (all_channels st)) st) ;;
      lift r ;;
      ret c'
  end.

Definition status_message (chan : Channel) : string :=
  json_dumps (PyDict [("name", PyStr (name chan));
                      ("status", PyStr (status_id_to_str (status chan)))]).

Definition start_channel (channelname : pyval) (ws_arg : option WebSocket)
  : M unit :=
  open_ws ws_arg ;;
  chan <- gets (fun st => get_channel channelname (all_channels st)) ;;
  chan <- await_method "start" chan_start channelname chan ;;
  let resp_message := status_message chan in
  send_str resp_message.

Definition stop_channel (channelname : pyval) (ws_arg : option WebSocket)
  : M unit :=
  open_ws ws_arg ;;
  chan <- gets (fun st => get_channel channelname (all_channels st)) ;;
  chan <- await_method "stop" chan_stop channelname chan ;;
  let resp_message := status_message chan in
  send_str resp_message.
End Handlers.

Section MessageHandlers.
Context {env : Collaborators}.

(** ** The message store *)

(** Modelled from the spec: the message store's [search] and [total],
    whose code is not in these files.  A search filters and orders the
    stored messages, skips [start] of them and returns at most [count],
    each as a fresh dict of its fields and its message under the key
    [message]; [total] is the size of the store, ignoring pagination. *)
Definition entry_dict (r : Stored) : Entry :=
  dict_set "message" (EMsg (message r))
    (map (fun kv => (fst kv, EVal (snd kv))) (fields r)).

Definition search (store : MessageStore) (args : SearchArgs) : list Entry :=
  map entry_dict
    (firstn (Z.to_nat (count args))
       (skipn (Z.to_nat (start args)) (store_select args (stored store)))).

Definition total (store : MessageStore) : Z :=
  Z.of_nat (List.length (stored store)).

(** ** [list_msgs] *)

(** [int(args.get(k, default))] *)
Definition int_arg (k : string) (default : Z) (args : list (string * string))
  : outcome Z :=
  match dict_get k args with
  | Some s => py_int s
  | None => Ok default
  end.

(** [chan.attr] where [chan] may be [None]. *)
Definition attr_of (chan : option Channel) (attr : string) : outcome Channel :=
  match chan with
  | Some c => Ok c
  | None => Raise (none_has_no attr)
  end.

(** [res['message'].attr] *)
Definition entry_message (attr : string) (res : Entry) : outcome Message :=
  match dict_get "message" res with
  | None => Raise (KeyError (PyStr "message"))
  | Some (EMsg m) => Ok m
  | Some (EVal v) => Raise (no_attribute v attr)
  end.

(** The body of [for res in messages]. *)
Definition render (res : Entry) : outcome Entry :=
  let* m := entry_message "timestamp_str" res in
  let res := dict_set "timestamp" (EVal (PyStr (msg_timestamp_str m))) res in
  let* m := entry_message "to_json" res in
  let res := dict_set "message" (EVal (PyStr (msg_to_json m))) res in
  Ok res.

Fixpoint render_all (messages : list Entry) : outcome (list Entry) :=
  match messages with
  | [] => Ok []
  | res :: rest =>
      let* res' := render res in
      let* rest' := render_all rest in
      Ok (res' :: rest')
  end.

(** What [json.dumps] makes of an entry: a [Message] left in it cannot
    be serialized. *)
Fixpoint entry_to_py (res : Entry) : outcome pydict :=
  match res with
  | [] => Ok []
  | (k, EVal v) :: rest =>
      let* rest' := entry_to_py rest in Ok ((k, v) :: rest')
  | (_, EMsg _) :: _ =>
      Raise (TypeError "Object of type Message is not JSON serializable")
  end.

Fixpoint entries_to_py (messages : list Entry) : outcome (list pyval) :=
  match messages with
  | [] => Ok []
  | res :: rest =>
      let* d := entry_to_py res in
      let* rest' := entries_to_py rest in
      Ok (PyDict d :: rest')
  end.

Definition list_msgs (channelname : pyval) (ws_arg : option WebSocket)
  : M unit :=
  open_ws ws_arg ;;
  chan <- gets (fun st => get_channel channelname (all_channels st)) ;;
  args <- gets (fun st => query (request st)) ;;
  start <- lift (int_arg "start" 0 args) ;;
  count <- lift (int_arg "count" 10 args) ;;
  let order_by :=
    match dict_get "order_by" args with Some s => s | None => "timestamp" end in
  let start_dt := dict_get "start_dt" args in
  let end_dt := dict_get "end_dt" args in
  let text := dict_get "text" args in
  let rtext := dict_get "rtext" args in
  chan <- lift (attr_of chan "message_store") ;;
  let messages :=
    search (message_store chan)
      {| start := start; count := count; order_by := order_by;
         start_dt := start_dt; end_dt := end_dt;
         text := text; rtext := rtext |} in
  messages <- lift (render_all messages) ;;
  let total := total (message_store chan) in
  messages <- lift (entries_to_py messages) ;;
  let resp_message :=
    json_dumps (PyDict [("messages", PyList messages);
                        ("total", PyInt total)]) in
  send_str resp_message.

(** ** [replay_msg], [view_msg], [preview_msg] *)

Definition error_entry (exc : exn) : pyval :=
  PyDict [("error", PyStr (exn_str exc))].

(** [try: result.append(body) except Exception as exc:
    result.append({'error': str(exc)})] *)
Definition try_append (result : list pyval) (body : outcome pyval)
  : list pyval :=
  match body with
  | Ok d => (result ++ [d])%list
  | Raise exc => (result ++ [error_entry exc])%list
  end.

Definition replay_msg (channelname message_id : pyval)
           (ws_arg : option WebSocket) : M unit :=
  open_ws ws_arg ;;
  chan <- gets (fun st => get_channel channelname (all_channels st)) ;;
  let result := [] in
  let result := try_append result
    (let* c := attr_of chan "replay" in
     let* msg_res := chan_replay c message_id in
     Ok (msg_to_dict msg_res)) in
  let resp_message := json_dumps (PyList result) in
  send_str resp_message.

Definition view_msg (channelname message_id : pyval)
           (ws_arg : option WebSocket) : M unit :=
  open_ws ws_arg ;;
  chan <- gets (fun st => get_channel channelname (all_channels st)) ;;
  let result := [] in
  let result := try_append result
    (let* c := attr_of chan "message_store" in
     let* msg_res := get_msg_content (message_store c) message_id in
     Ok (msg_to_dict msg_res)) in
  let resp_message := json_dumps (PyList result) in
  send_str resp_message.

Definition preview_msg (channelname message_id : pyval)
           (ws_arg : option WebSocket) : M unit :=
  open_ws ws_arg ;;
  chan <- gets (fun st => get_channel channelname (all_channels st)) ;;
  let result := [] in
  let result := try_append result
    (let* c := attr_of chan "message_store" in
     let* msg_res := get_preview_str (message_store c) message_id in
     Ok (msg_to_dict msg_res)) in
  let resp_message := json_dumps (PyList result) in
  send_str resp_message.
End MessageHandlers.

Section Legacy.
Context {env : Collaborators}.

(** ** [backport_old_client] *)

(** The dict built in the [list_msgs] branch and filtered of its [None]
    values. *)
Definition list_msgs_query_params (params : pyval) : outcome pydict :=
  let* p1 := py_index params 1 in
  let* p2 := py_index params 2 in
  let* p3 := py_index params 3 in
  let* p4 := py_index params 4 in
  let* p5 := py_index params 5 in
  let* p6 := py_index params 6 in
  let* p7 := py_index params 7 in
  let query_params :=
    [("start", p1); ("count", p2); ("order_by", p3); ("start_dt", p4);
     ("end_dt", p5); ("text", p6); ("rtext", p7)] in
  let query_params :=
    filter (fun kv => negb (is_None (snd kv))) query_params in
  Ok query_params.

(** A handler called with [ws=ws]. *)
Definition with_session_ws (handler : option WebSocket -> M unit) : M unit :=
  w <- gets ws ;;
  handler (Some w).

(** The [if]/[elif] chain on [cmd_method]. *)
Definition dispatch (cmd_method params channelname : pyval) : M unit :=
  if py_eq_str cmd_method "channels" then
    with_session_ws list_channels
  else if py_eq_str cmd_method "preview_msg" then
    message_id <- lift (py_index params 1) ;;
    with_session_ws (preview_msg channelname message_id)
  else if py_eq_str cmd_method "view_msg" then
    message_id <- lift (py_index params 1) ;;
    with_session_ws (view_msg channelname message_id)
  else if py_eq_str cmd_method "replay_msg" then
    message_id <- lift (py_index params 1) ;;
    with_session_ws (replay_msg channelname message_id)
  else if py_eq_str cmd_method "list_msgs" then
    query_params <- lift (list_msgs_query_params params) ;;
    req <- gets request ;;
    req' <- lift (update_query req query_params) ;;
    modify (with_request req') ;;
    with_session_ws (list_msgs channelname)
  else if py_eq_str cmd_method "start_channel" then
    with_session_ws (start_channel channelname)
  else if py_eq_str cmd_method "stop_channel" then
    with_session_ws (stop_channel channelname)
  else
    send_str (py_str cmd_method ++ " is not a valid method").

(** What [backport_old_client] returns. *)
Inductive returned : Type :=
| ReturnWs      (* [return ws] after a frame that does not parse *)
| ReturnNone.   (* the end of the function, the socket being closed *)

(** The body of [async for msg in ws] for a frame of text [data]:
    [Some ReturnWs] when the body leaves the function, [None] when the
    loop goes on.  [cmd_data] and [ws.rpc_data] are one object, so the
    [pop] is seen through both. *)
Definition loop_body (data : string) : M (option returned) :=
  match json_loads data with
  | Raise _ =>
      send_str ("cannot parse ws json data (" ++ data ++ ")") ;;
      ret (Some ReturnWs)
  | Ok cmd_data =>
      set_rpc_attrs cmd_data ;;
      popped <- lift (py_pop cmd_data "method") ;;
      let (cmd_method, cmd_data) := popped : pyval * pyval in
      set_rpc_attrs cmd_data ;;
      params <- lift (py_get cmd_data "params" (PyList [PyNone])) ;;
      channelname <- lift (py_index params 0) ;;
      dispatch cmd_method params channelname ;;
      ret None
  end.

Fixpoint session_loop (frames : list string) : M returned :=
  match frames with
  | [] => ret ReturnNone
  | data :: rest =>
      r <- loop_body data ;;
      match r with
      | Some v => ret v
      | None => session_loop rest
      end
  end.

(** [backport_old_client(request)] on a connection that delivers the
    text frames [frames] and is then closed. *)
Definition backport_old_client (frames : list string) : M returned :=
  modify (with_ws RPCWebSocketResponse) ;;
  session_loop frames.
End Legacy.

(** ** Notions used in the statements *)

(** A plain socket and an RPC socket that have sent [frames]. *)
Definition plain (frames : list string) : WebSocket :=
  {| is_rpc := false; rpc_data := None; sent := frames |}.

Definition rpc (data : option pyval) (frames : list string) : WebSocket :=
  {| is_rpc := true; rpc_data := data; sent := frames |}.

(** The socket a handler writes to, given its [ws] argument. *)
Definition opened (ws_arg : option WebSocket) : WebSocket :=
  match ws_arg with
  | Some w => w
  | None => WebSocketResponse
  end.

(** What [to_dict()] and [subchannels()] return is well formed. *)
Definition chan_wf (chan : Channel) : bool :=
  wf_members (to_dict chan) && wf (subchannels chan).




Definition is_val (x : entry_val) : bool :=
  match x with EVal _ => true | EMsg _ => false end.

Definition all_vals (e : Entry) : bool :=
  forallb (fun kv => is_val (snd kv)) e.

(** No [Message] object in an entry but under the first key [k]. *)
Fixpoint msg_first (k : string) (e : Entry) : bool :=
  match e with
  | [] => true
  | (k0, x) :: e' =>
      if (k0 =? k)%string then all_vals e' else is_val x && msg_first k e'
  end.

Definition lift_entry (d : pydict) : Entry :=
  map (fun kv => (fst kv, EVal (snd kv))) d.

Section Statements.
Context {env : Collaborators}.

(** The single entry a lookup leaves in [result]. *)
Definition entry_of (lookup : outcome Message) : pyval :=
  match lookup with
  | Ok msg_res => msg_to_dict msg_res
  | Raise exc => error_entry exc
  end.

(** A method called on what [get_channel] returned. *)
Definition on_channel (attr : string) (chan : option Channel)
           (method : Channel -> outcome Message) : outcome Message :=
  match chan with
  | Some c => method c
  | None => Raise (none_has_no attr)
  end.

(** What [list_msgs] answers for a stored message: its fields, with the
    rendered timestamp and the serialized message. *)
Definition rendered (r : Stored) (entry : pyval) : Prop :=
  exists d,
    entry = PyDict d
    /\ dict_get "timestamp" d = Some (PyStr (msg_timestamp_str (message r)))
    /\ dict_get "message" d = Some (PyStr (msg_to_json (message r)))
    /\ forall k, k <> "timestamp" -> k <> "message" ->
                 dict_get k d = dict_get k (fields r).

(** The arguments [list_msgs] gives to [search] for a query. *)
Definition search_args (start count : Z) (args : list (string * string))
  : SearchArgs :=
  {| start := start; count := count;
     order_by := match dict_get "order_by" args with
                 | Some s => s
                 | None => "timestamp"
                 end;
     start_dt := dict_get "start_dt" args;
     end_dt := dict_get "end_dt" args;
     text := dict_get "text" args;
     rtext := dict_get "rtext" args |}.

(** The stored messages a search returns. *)
Definition page_of (store : MessageStore) (args : SearchArgs) : list Stored :=
  firstn (Z.to_nat (count args))
    (skipn (Z.to_nat (start args)) (store_select args (stored store))).
End Statements.

(** ** Notions used to follow a legacy session *)

(** The names the [if]/[elif] chain of [backport_old_client] knows. *)
Definition known_methods : list string :=
  ["channels"; "preview_msg"; "view_msg"; "replay_msg"; "list_msgs";
   "start_channel"; "stop_channel"].





(** ** A sample environment, to run the handlers on concrete inputs *)

Definition sample_message (n : Z) : Message :=
  {| payload := PyInt n; content_type := "application/python"; meta := [] |}.

Definition sample : Collaborators :=
  {| chan_start := fun c => (Ok tt, c);
     chan_stop := fun c => (Ok tt, c);
     chan_replay := fun _ _ => Raise (Exception_ "nothing to replay");
     status_id_to_str := dumps_int;
     msg_to_dict := fun m => PyDict [("payload", payload m)];
     msg_to_json := fun m => json_dumps (PyDict [("payload", payload m)]);
     msg_timestamp_str := fun _ => "2020-01-01 00:00:00.000000";
     get_msg_content := fun _ message_id => Raise (KeyError message_id);
     get_preview_str := fun _ message_id => Raise (KeyError message_id);
     store_select := fun _ l => l;
     update_query := fun r _ => Ok r;
     py_int := fun s =>
       match json_loads s with
       | Ok (PyInt z) => Ok z
       | _ => Raise (ValueError "invalid literal for int() with base 10")
       end;
     py_repr := json_dumps |}.

(** A store of 25 messages behind a channel named [chan]. *)
Definition sample_store : MessageStore :=
  {| stored :=
       map (fun n => {| fields := [("id", PyInt (Z.of_nat n))];
                        message := sample_message (Z.of_nat n) |})
           (seq 0 25) |}.

Definition sample_channel : Channel :=
  {| name := "chan"; parent := None; status := 0;
     to_dict := [("name", PyStr "chan"); ("status", PyStr "WAITING")];
     subchannels := PyList [];
     message_store := sample_store |}.

Definition sample_state : State :=
  {| request := {| query := [] |};
     ws := WebSocketResponse;
     all_channels := [sample_channel] |}.

End views.
(* ================================================================== *)
(** * Facts about the [json] model *)
(* ================================================================== *)

Lemma append_assoc (a b c : string) : (a ++ b) ++ c = a ++ (b ++ c).
Proof. induction a as [|x a IH]; simpl; [reflexivity | now rewrite IH]. Qed.

Lemma append_nil_r (a : string) : a ++ "" = a.
Proof. induction a as [|x a IH]; simpl; [reflexivity | now rewrite IH]. Qed.

Lemma length_append (a b : string) :
  String.length (a ++ b) = String.length a + String.length b.
Proof. induction a as [|x a IH]; simpl; [reflexivity | now rewrite IH]. Qed.

Ltac each_char c := destruct c as [[] [] [] [] [] [] [] []].

(** *** Strings *)

Lemma scan_string_char (c : ascii) (t : string) :
  scan_string (escape_char c ++ t) =
  match scan_string t with
  | Ok (u, r) => Ok (String c u, r)
  | Raise x => Raise x
  end.
Proof. each_char c; reflexivity. Qed.

Lemma scan_string_escape (s rest : string) :
  scan_string (escape s ++ String dquote rest) = Ok (s, rest).
Proof.
  induction s as [|c s IH].
  - reflexivity.
  - cbn [escape]. rewrite append_assoc, scan_string_char, IH. reflexivity.
Qed.

(** *** Numbers *)

Lemma number_char_digit (c : ascii) :
  number_char c = false -> digit_of c = None.
Proof. unfold number_char. now destruct (digit_of c). Qed.

Lemma scan_digits_print (d : Decimal.uint) (rest : string) :
  number_end rest ->
  scan_digits (NilEmpty.string_of_uint d ++ rest) = (d, rest).
Proof.
  intros Hrest. induction d; cbn [NilEmpty.string_of_uint append];
    try (cbn [scan_digits digit_of]; rewrite IHd; reflexivity).
  destruct rest as [|c r]; [reflexivity|].
  cbn in Hrest. cbn [scan_digits]. now rewrite (number_char_digit c Hrest).
Qed.

Lemma to_uint_head (p : positive) :
  Pos.to_uint p <> Decimal.Nil /\ forall d, Pos.to_uint p <> Decimal.D0 d.
Proof.
  split; [apply Unsigned.to_uint_nonnil|].
  intros d Hd.
  assert (Hn : Pos.to_uint p = Decimal.unorm (Pos.to_uint p)).
  { rewrite <- Unsigned.to_of, Unsigned.of_to. reflexivity. }
  destruct (Decimal.nzhead (Pos.to_uint p)) eqn:Hz;
    [ apply unorm_0 in Hz; rewrite <- Hn in Hz;
      now apply (Unsigned.to_uint_nonzero p) | .. ];
    rewrite unorm_nzhead in Hn by (rewrite Hz; discriminate);
    rewrite Hn in Hd; now apply nzhead_nonzero in Hd.
Qed.

(** The print of a positive number starts with a digit from 1 to 9. *)
Lemma print_pos_head (p : positive) (rest : string) :
  after "0" (NilEmpty.string_of_uint (Pos.to_uint p) ++ rest) = None
  /\ after "-" (NilEmpty.string_of_uint (Pos.to_uint p) ++ rest) = None
  /\ fst (scan_digits (NilEmpty.string_of_uint (Pos.to_uint p) ++ rest))
     <> Decimal.Nil.
Proof.
  destruct (to_uint_head p) as [Hnil Hzero].
  destruct (Pos.to_uint p) as [|d|d|d|d|d|d|d|d|d|d];
    try congruence; try (now elim (Hzero d));
    cbn [NilEmpty.string_of_uint append scan_digits digit_of];
    destruct (scan_digits _); repeat split; discriminate.
Qed.

Lemma scan_nat_print (p : positive) (rest : string) :
  number_end rest ->
  scan_nat (NilEmpty.string_of_uint (Pos.to_uint p) ++ rest) = Ok (Npos p, rest).
Proof.
  intros Hrest. destruct (print_pos_head p rest) as (H0 & _ & Hd).
  unfold scan_nat. rewrite H0.
  rewrite scan_digits_print in * by assumption. cbn [fst] in Hd.
  pose proof (Unsigned.of_to p) as Hof. unfold N.of_uint. rewrite Hof.
  destruct (Pos.to_uint p); congruence.
Qed.

Lemma number_end_frac_exp (rest : string) :
  number_end rest -> scan_frac rest = None /\ scan_exp rest = None.
Proof.
  destruct rest as [|c t]; [now split|]. cbn [number_end].
  each_char c; intros Hc; try discriminate Hc; now split.
Qed.

Lemma scan_number_int (s : string) (n : N) (r : string) :
  scan_nat match after "-" s with Some t => t | None => s end = Ok (n, r) ->
  number_end r ->
  scan_number s =
  Ok (PyInt match after "-" s with
            | Some _ => - Z.of_N n
            | None => Z.of_N n
            end, r).
Proof.
  intros Hn Hr. destruct (number_end_frac_exp r Hr) as [Hf He].
  unfold scan_number. rewrite Hn. cbv beta iota zeta.
  rewrite Hf, He, Nat.ltb_irrefl. reflexivity.
Qed.

Lemma scan_number_print (z : Z) (rest : string) :
  number_end rest ->
  scan_number (dumps_int z ++ rest) = Ok (PyInt z, rest).
Proof.
  intros Hrest. destruct z as [|p|p]; cbn [dumps_int append].
  - now rewrite (scan_number_int _ 0%N rest).
  - destruct (print_pos_head p rest) as (_ & Hm & _).
    rewrite (scan_number_int _ (Npos p) rest); rewrite ?Hm;
      [reflexivity | now apply scan_nat_print | assumption].
  - rewrite (scan_number_int _ (Npos p) rest); cbn [after];
      rewrite ?Ascii.eqb_refl;
      [reflexivity | now apply scan_nat_print | assumption].
Qed.

(** *** Values *)


Lemma dumps_PyList (l : list pyval) :
  dumps (PyList l) = String "[" (dumps_elems l ++ "]").
Proof. reflexivity. Qed.

Lemma dumps_PyDict (d : list (string * pyval)) :
  dumps (PyDict d) = String "{" (dumps_members d ++ "}").
Proof. reflexivity. Qed.

Lemma wf_PyList (l : list pyval) : wf (PyList l) = wf_elems l.
Proof. reflexivity. Qed.

Lemma wf_PyDict (d : list (string * pyval)) : wf (PyDict d) = wf_members d.
Proof. reflexivity. Qed.

Lemma need_PyList (l : list pyval) : need (PyList l) = S (need_elems l).
Proof. reflexivity. Qed.

Lemma need_PyDict (d : list (string * pyval)) :
  need (PyDict d) = S (need_members d).
Proof. reflexivity. Qed.

Lemma need_pos (v : pyval) : 1 <= need v.
Proof. destruct v; cbn [need]; lia. Qed.

Lemma dumps_head (v : pyval) :
  wf v = true -> exists c s, dumps v = String c s /\ value_head c = true.
Proof.
  intros Hw. destruct v as [|[]|z|t|s|l|d]; [| | | |discriminate Hw| | |].
  - now exists "n"%char, "ull".
  - now exists "t"%char, "rue".
  - now exists "f"%char, "alse".
  - destruct z as [|p|p]; cbn [dumps dumps_int].
    + now exists "0"%char, "".
    + destruct (to_uint_head p) as [Hnil _].
      destruct (Pos.to_uint p); try congruence;
        cbn [NilEmpty.string_of_uint]; eexists _, _; split; reflexivity.
    + eexists _, _; split; reflexivity.
  - eexists _, _; split; reflexivity.
  - rewrite dumps_PyList. eexists _, _; split; reflexivity.
  - rewrite dumps_PyDict. eexists _, _; split; reflexivity.
Qed.

Lemma skip_ws_head (c : ascii) (t : string) :
  value_head c = true -> skip_ws (String c t) = String c t.
Proof. each_char c; intros Hc; try discriminate Hc; reflexivity. Qed.

Lemma after_head (c d : ascii) (t : string) :
  value_head c = true -> d = "]"%char \/ d = "}"%char \/ d = ","%char ->
  after d (String c t) = None.
Proof.
  intros Hc [-> | [-> | ->]]; each_char c; try discriminate Hc; reflexivity.
Qed.

Lemma scan_value_S (n : nat) (c : ascii) (s' : string) :
  scan_value (S n) (String c s') =
  if (c =? dquote)%char then
    match scan_string s' with
    | Ok (u, r) => Ok (PyStr u, r)
    | Raise x => Raise x
    end
  else if (c =? "{")%char then
    match after "}" (skip_ws s') with
    | Some r => Ok (PyDict [], r)
    | None =>
        match scan_members n (skip_ws s') with
        | Ok (ps, r) => Ok (PyDict (dict_of_pairs ps), r)
        | Raise x => Raise x
        end
    end
  else if (c =? "[")%char then
    match after "]" (skip_ws s') with
    | Some r => Ok (PyList [], r)
    | None =>
        match scan_elems n (skip_ws s') with
        | Ok (vs, r) => Ok (PyList vs, r)
        | Raise x => Raise x
        end
    end
  else if (c =? "n")%char then expect "null" PyNone (String c s')
  else if (c =? "t")%char then expect "true" (PyBool true) (String c s')
  else if (c =? "f")%char then expect "false" (PyBool false) (String c s')
  else scan_number (String c s').
Proof. reflexivity. Qed.

Lemma scan_elems_S (n : nat) (s : string) :
  scan_elems (S n) s =
  match scan_value n s with
  | Raise x => Raise x
  | Ok (v, r) =>
      match after "," (skip_ws r) with
      | Some r1 =>
          match scan_elems n (skip_ws r1) with
          | Ok (vs, r2) => Ok (v :: vs, r2)
          | Raise x => Raise x
          end
      | None =>
          match after "]" (skip_ws r) with
          | Some r1 => Ok ([v], r1)
          | None => bad "Expecting ',' delimiter"
          end
      end
  end.
Proof. reflexivity. Qed.

Lemma scan_members_S (n : nat) (s : string) :
  scan_members (S n) s =
  match after dquote s with
  | None => bad "Expecting property name enclosed in double quotes"
  | Some s' =>
      match scan_string s' with
      | Raise x => Raise x
      | Ok (k, r) =>
          match after ":" (skip_ws r) with
          | None => bad "Expecting ':' delimiter"
          | Some r1 =>
              match scan_value n (skip_ws r1) with
              | Raise x => Raise x
              | Ok (v, r2) =>
                  match after "," (skip_ws r2) with
                  | Some r3 =>
                      match scan_members n (skip_ws r3) with
                      | Ok (ps, r4) => Ok ((k, v) :: ps, r4)
                      | Raise x => Raise x
                      end
                  | None =>
                      match after "}" (skip_ws r2) with
                      | Some r3 => Ok ([(k, v)], r3)
                      | None => bad "Expecting ',' delimiter"
                      end
                  end
              end
          end
      end
  end.
Proof. reflexivity. Qed.

(** *** Dicts and the round trip *)

Lemma keys_fresh_app (k : string) (a b : list (string * pyval)) :
  keys_fresh k (a ++ b)%list = keys_fresh k a && keys_fresh k b.
Proof.
  induction a as [|[k' x] a IH]; [reflexivity|].
  cbn [keys_fresh List.app]. rewrite IH. now rewrite andb_assoc.
Qed.

Lemma dict_set_fresh (k : string) (v : pyval) (d : list (string * pyval)) :
  keys_fresh k d = true -> dict_set k v d = (d ++ [(k, v)])%list.
Proof.
  induction d as [|[k' x] d IH]; [reflexivity|].
  cbn [keys_fresh dict_set List.app]. intros Hf.
  apply andb_true_iff in Hf as [Hk Hd].
  destruct (k' =? k); [discriminate|]. now rewrite IH.
Qed.


Lemma apart_snoc (acc d : list (string * pyval)) (k : string) (v : pyval) :
  apart acc d = true -> keys_fresh k d = true ->
  apart (acc ++ [(k, v)]) d = true.
Proof.
  induction d as [|[k' x] d IH]; [reflexivity|].
  cbn [apart keys_fresh]. intros Ha Hf.
  apply andb_true_iff in Ha as [Ha1 Ha2].
  apply andb_true_iff in Hf as [Hf1 Hf2].
  rewrite keys_fresh_app, Ha1, IH by assumption.
  cbn [keys_fresh]. rewrite String.eqb_sym. now rewrite Hf1.
Qed.

Lemma fold_dict_set (d acc : list (string * pyval)) :
  wf_members d = true -> apart acc d = true ->
  fold_left (fun a kv => dict_set (fst kv) (snd kv) a) d acc = (acc ++ d)%list.
Proof.
  revert acc. induction d as [|[k x] d IH]; intros acc Hw Ha.
  - cbn. now rewrite List.app_nil_r.
  - cbn [wf_members] in Hw. cbn [apart] in Ha.
    apply andb_true_iff in Hw as [Hw Hd]. apply andb_true_iff in Hw as [Hk Hx].
    apply andb_true_iff in Ha as [Ha1 Ha2].
    cbn [fold_left fst snd]. rewrite dict_set_fresh by assumption.
    rewrite IH; [| assumption | now apply apart_snoc].
    now rewrite <- List.app_assoc.
Qed.

Lemma dict_of_pairs_wf (d : list (string * pyval)) :
  wf_members d = true -> dict_of_pairs d = d.
Proof.
  intros Hw. unfold dict_of_pairs. rewrite fold_dict_set; [reflexivity|assumption|].
  clear Hw. induction d as [|[k x] d IH]; [reflexivity|]. cbn. exact IH.
Qed.

Lemma skip_ws_dumps (x : pyval) (r : string) :
  wf x = true -> skip_ws (dumps x ++ r) = dumps x ++ r.
Proof.
  intros Hx. destruct (dumps_head x Hx) as (c & t & -> & Hh).
  now apply skip_ws_head.
Qed.

Lemma after_dumps (d : ascii) (x : pyval) (r : string) :
  wf x = true -> d = "]"%char \/ d = "}"%char \/ d = ","%char ->
  after d (dumps x ++ r) = None.
Proof.
  intros Hx. destruct (dumps_head x Hx) as (c & t & -> & Hh).
  now apply after_head.
Qed.

Lemma dumps_int_head (z : Z) (r : string) (n : nat) :
  scan_value (S n) (dumps_int z ++ r) = scan_number (dumps_int z ++ r).
Proof.
  destruct (dumps_head (PyInt z) eq_refl) as (c & t & Hc & Hh).
  cbn [dumps] in Hc. rewrite Hc. cbn [append]. rewrite scan_value_S.
  destruct z as [|p|p]; cbn [dumps_int] in Hc.
  - injection Hc as <- _. reflexivity.
  - destruct (Pos.to_uint p); cbn in Hc; try discriminate;
      injection Hc as <- _; reflexivity.
  - injection Hc as <- _. reflexivity.
Qed.

Lemma dumps_elems_cons (x : pyval) (l : list pyval) (r : string) :
  dumps_elems (x :: l) ++ r =
  dumps x ++ match l with [] => r | _ :: _ => ", " ++ dumps_elems l ++ r end.
Proof.
  cbn [dumps_elems]. rewrite append_assoc. destruct l; [reflexivity|].
  now rewrite append_assoc.
Qed.

Lemma dumps_members_cons (k : string) (x : pyval) (d : list (string * pyval))
      (r : string) :
  dumps_members ((k, x) :: d) ++ r =
  String dquote (escape k ++ String dquote (": " ++ dumps x ++
    match d with [] => r | _ :: _ => ", " ++ dumps_members d ++ r end)).
Proof.
  cbn [dumps_members dumps_str append]. f_equal.
  destruct d; rewrite !append_assoc; cbn [append]; rewrite ?append_assoc;
    rewrite ?append_nil_r; reflexivity.
Qed.

Lemma skip_ws_elems (x : pyval) (l : list pyval) (r : string) :
  wf x = true ->
  skip_ws (dumps_elems (x :: l) ++ r) = dumps_elems (x :: l) ++ r.
Proof. intros Hx. rewrite dumps_elems_cons. now apply skip_ws_dumps. Qed.

Lemma after_elems (x : pyval) (l : list pyval) (r : string) :
  wf x = true -> after "]" (dumps_elems (x :: l) ++ r) = None.
Proof. intros Hx. rewrite dumps_elems_cons. apply after_dumps; auto. Qed.

Lemma skip_ws_members (k : string) (x : pyval) (d : list (string * pyval))
      (r : string) :
  skip_ws (dumps_members ((k, x) :: d) ++ r) = dumps_members ((k, x) :: d) ++ r.
Proof. rewrite dumps_members_cons. reflexivity. Qed.

Lemma after_members (k : string) (x : pyval) (d : list (string * pyval))
      (r : string) :
  after "}" (dumps_members ((k, x) :: d) ++ r) = None.
Proof. rewrite dumps_members_cons. reflexivity. Qed.

Lemma skip_ws_comma (t : string) : skip_ws (String "," t) = String "," t.
Proof. reflexivity. Qed.

Lemma skip_ws_space (t : string) : skip_ws (String " " t) = skip_ws t.
Proof. reflexivity. Qed.

Lemma skip_ws_close (c : ascii) (t : string) :
  c = "]"%char \/ c = "}"%char -> skip_ws (String c t) = String c t.
Proof. now intros [-> | ->]. Qed.

Lemma scan_roundtrip (n : nat) :
  (forall v rest, wf v = true -> need v <= n -> number_end rest ->
     scan_value n (dumps v ++ rest) = Ok (v, rest)) /\
  (forall l rest, l <> [] -> wf_elems l = true -> need_elems l <= n ->
     scan_elems n (dumps_elems l ++ String "]" rest) = Ok (l, rest)) /\
  (forall d rest, d <> [] -> wf_members d = true -> need_members d <= n ->
     scan_members n (dumps_members d ++ String "}" rest) = Ok (d, rest)).
Proof.
  induction n as [|n [IHv [IHl IHd]]].
  { split; [|split].
    - intros v rest _ Hn. pose proof (need_pos v). lia.
    - intros [|x l] rest Hl _ Hn; [congruence | cbn in Hn; lia].
    - intros [|[k x] d] rest Hd _ Hn; [congruence | cbn in Hn; lia]. }
  split; [|split].
  - intros v rest Hw Hn Hrest.
    destruct v as [|[]|z|t|s|l|d]; try reflexivity; [|discriminate Hw| | |].
    + cbn [dumps]. rewrite dumps_int_head. now apply scan_number_print.
    + cbn [dumps dumps_str append]. rewrite scan_value_S.
      rewrite Ascii.eqb_refl, append_assoc. cbn [append].
      now rewrite scan_string_escape.
    + rewrite dumps_PyList, wf_PyList, need_PyList in *.
      cbn [append]. rewrite scan_value_S. cbn [Ascii.eqb Bool.eqb dquote].
      rewrite append_assoc. cbn [append].
      destruct l as [|x l]; [reflexivity|].
      rewrite skip_ws_elems, after_elems
        by (cbn [wf_elems] in Hw; now apply andb_true_iff in Hw).
      rewrite (IHl (x :: l) rest); [reflexivity | discriminate | assumption | lia].
    + rewrite dumps_PyDict, wf_PyDict, need_PyDict in *.
      cbn [append]. rewrite scan_value_S. cbn [Ascii.eqb Bool.eqb dquote].
      rewrite append_assoc. cbn [append].
      destruct d as [|[k x] d]; [reflexivity|].
      rewrite skip_ws_members, after_members.
      rewrite (IHd ((k, x) :: d) rest); [| discriminate | assumption | lia].
      now rewrite dict_of_pairs_wf.
  - intros [|x l] rest Hl Hw Hn; [congruence|].
    cbn [wf_elems need_elems] in Hw, Hn. apply andb_true_iff in Hw as [Hx Hw].
    rewrite scan_elems_S, dumps_elems_cons.
    destruct l as [|y l].
    + rewrite IHv by (try assumption; try lia; reflexivity). reflexivity.
    + rewrite IHv by (try assumption; try lia; reflexivity).
      cbn [append]. rewrite skip_ws_comma. cbn [after].
      rewrite Ascii.eqb_refl, skip_ws_space, skip_ws_elems
        by (cbn [wf_elems] in Hw; now apply andb_true_iff in Hw).
      rewrite (IHl (y :: l) rest);
        [reflexivity | discriminate | assumption | lia].
  - intros [|[k x] d] rest Hd Hw Hn; [congruence|].
    cbn [wf_members need_members] in Hw, Hn.
    apply andb_true_iff in Hw as [Hw Hwd]. apply andb_true_iff in Hw as [Hk Hx].
    rewrite scan_members_S, dumps_members_cons. cbn [after].
    rewrite Ascii.eqb_refl, scan_string_escape.
    cbn [append]. 
    change (skip_ws (String ":" ?t)) with (String ":" t). cbn [after].
    rewrite Ascii.eqb_refl, skip_ws_space, skip_ws_dumps by assumption.
    destruct d as [|[k' y] d].
    + rewrite IHv by (try assumption; try lia; reflexivity). reflexivity.
    + rewrite IHv by (try assumption; try lia; reflexivity).
      cbn [append]. rewrite skip_ws_comma. cbn [after].
      rewrite Ascii.eqb_refl, skip_ws_space, skip_ws_members.
      rewrite (IHd ((k', y) :: d) rest);
        [reflexivity | discriminate | assumption | lia].
Qed.

(** Induction on values, through the lists they nest. *)
Lemma pyval_induction (P : pyval -> Prop) :
  P PyNone -> (forall b, P (PyBool b)) -> (forall z, P (PyInt z)) ->
  (forall t, P (PyFloat t)) -> (forall s, P (PyStr s)) ->
  (forall l, Forall P l -> P (PyList l)) ->
  (forall d, Forall (fun kv => P (snd kv)) d -> P (PyDict d)) ->
  forall v, P v.
Proof.
  intros HN HB HI HF HS HL HD.
  fix IH 1. intros [| b | z | t | s | l | d].
  - exact HN.
  - exact (HB b).
  - exact (HI z).
  - exact (HF t).
  - exact (HS s).
  - apply HL. induction l as [|x l IHl]; constructor; [apply IH | exact IHl].
  - apply HD. induction d as [|[k x] d IHd]; constructor; [apply IH | exact IHd].
Qed.

Lemma need_le_length (v : pyval) :
  wf v = true -> need v <= String.length (dumps v).
Proof.
  induction v as [| b | z | t | s | l IH | d IH] using pyval_induction;
    intros Hw.
  - cbn. lia.
  - destruct b; cbn; lia.
  - destruct (dumps_head (PyInt z) eq_refl) as (c & t & -> & _). cbn. lia.
  - discriminate Hw.
  - cbn. lia.
  - rewrite need_PyList, dumps_PyList. rewrite wf_PyList in Hw.
    cbn [String.length]. rewrite length_append. cbn [String.length].
    enough (need_elems l <= String.length (dumps_elems l) + 1) by lia.
    induction IH as [|x xs Hx Hxs IHxs]; [cbn; lia|].
    cbn [wf_elems] in Hw. apply andb_true_iff in Hw as [Hwx Hwxs].
    specialize (Hx Hwx). specialize (IHxs Hwxs).
    cbn [need_elems dumps_elems]. rewrite length_append.
    destruct xs; [cbn in *; lia|].
    rewrite length_append. cbn [String.length] in *. lia.
  - rewrite need_PyDict, dumps_PyDict. rewrite wf_PyDict in Hw.
    cbn [String.length]. rewrite length_append. cbn [String.length].
    enough (need_members d <= String.length (dumps_members d) + 1) by lia.
    induction IH as [|[k x] xs Hx Hxs IHxs]; [cbn; lia|].
    cbn [wf_members] in Hw. apply andb_true_iff in Hw as [Hw Hwxs].
    apply andb_true_iff in Hw as [_ Hwx]. cbn [snd] in Hx.
    specialize (Hx Hwx). specialize (IHxs Hwxs).
    cbn [need_members dumps_members] in *. rewrite !length_append.
    destruct xs; [cbn in *; lia|].
    rewrite length_append. cbn [String.length] in *. lia.
Qed.

Lemma loads_dumps (v : pyval) : wf v = true -> json_loads (json_dumps v) = Ok v.
Proof.
  intros Hw. unfold json_loads, json_dumps.
  pose proof (skip_ws_dumps v "" Hw) as Hs. rewrite append_nil_r in Hs.
  rewrite Hs.
  destruct (scan_roundtrip (fuel_for (dumps v))) as [Hv _].
  specialize (Hv v "" Hw). rewrite append_nil_r in Hv.
  rewrite Hv; [reflexivity | | exact I].
  pose proof (need_le_length v Hw). unfold fuel_for. lia.
Qed.

(** *** The scanner does not run out of fuel *)

Lemma bad_decode_error {A} (msg : string) (e : exn) :
  @bad msg A = Raise e -> decode_error e.
Proof. intros [= <-]. now exists msg. Qed.

Lemma skip_ws_length (s : string) : String.length (skip_ws s) <= String.length s.
Proof.
  induction s as [|c s IH]; [reflexivity|]. cbn [skip_ws].
  destruct (is_ws c); cbn [String.length]; lia.
Qed.

Lemma after_length (c : ascii) (s r : string) :
  after c s = Some r -> String.length s = S (String.length r).
Proof.
  destruct s as [|c' s]; [discriminate|]. cbn [after].
  destruct (c' =? c)%char; [|discriminate]. now intros [= <-].
Qed.

Lemma scan_string_spec (s : string) :
  match scan_string s with
  | Ok (_, r) => String.length r < String.length s
  | Raise e => decode_error e
  end.
Proof.
  induction s as [s IH] using (well_founded_induction
    (well_founded_ltof _ String.length)). unfold ltof in IH.
  destruct s as [|c s]; cbn [scan_string]; [now eexists|].
  destruct (c =? dquote)%char; [cbn; lia|].
  destruct (c =? backslash)%char.
  - destruct s as [|e s2]; [now eexists|].
    destruct (e =? "u")%char.
    + destruct s2 as [|h1 [|h2 [|h3 [|h4 s3]]]]; try (now eexists).
      destruct (hex4 h1 h2 h3 h4) as [n|]; [|now eexists].
      specialize (IH s3). destruct (scan_string s3) as [[u r]|x].
      * cbn [String.length] in *. lia.
      * apply IH. cbn. lia.
    + destruct (simple_escape e); [|now eexists].
      specialize (IH s2). destruct (scan_string s2) as [[u r]|x].
      * cbn [String.length] in *. lia.
      * apply IH. cbn. lia.
  - destruct (N_of_ascii c <? 32)%N; [now eexists|].
    specialize (IH s). destruct (scan_string s) as [[u r]|x].
    + cbn [String.length] in *. lia.
    + apply IH. cbn. lia.
Qed.

Lemma scan_digits_length (s : string) :
  String.length (snd (scan_digits s)) <= String.length s
  /\ (fst (scan_digits s) <> Decimal.Nil ->
      String.length (snd (scan_digits s)) < String.length s).
Proof.
  induction s as [|c s [IH1 IH2]]; cbn [scan_digits]; [cbn; split; [lia|congruence]|].
  destruct (digit_of c).
  - destruct (scan_digits s) as [d r]. cbn [fst snd String.length] in *.
    split; lia.
  - cbn [fst snd]. split; [lia | congruence].
Qed.

Lemma scan_nat_spec (s : string) :
  match scan_nat s with
  | Ok (_, r) => String.length r < String.length s
  | Raise e => decode_error e
  end.
Proof.
  unfold scan_nat. destruct (after "0" s) as [r|] eqn:E.
  - apply after_length in E. lia.
  - destruct (scan_digits_length s) as [_ Hl].
    destruct (scan_digits s) as [d r]. cbn [fst snd] in Hl.
    destruct d; try (apply Hl; discriminate). now eexists.
Qed.

Lemma scan_frac_length (s r : string) :
  scan_frac s = Some r -> String.length r <= String.length s.
Proof.
  unfold scan_frac. destruct (after "." s) as [t|] eqn:E; [|discriminate].
  apply after_length in E. destruct (scan_digits_length t) as [Hl _].
  destruct (scan_digits t) as [d r']. cbn [snd] in Hl.
  destruct d; try discriminate; intros [= <-]; lia.
Qed.

Lemma scan_exp_length (s r : string) :
  scan_exp s = Some r -> String.length r <= String.length s.
Proof.
  unfold scan_exp. destruct s as [|c t]; [discriminate|].
  destruct ((c =? "e") || (c =? "E"))%char; [|discriminate].
  set (t1 := match after "+" t with
             | Some u => u
             | None => match after "-" t with Some u => u | None => t end
             end).
  assert (Ht : String.length t1 <= String.length t).
  { unfold t1. destruct (after "+" t) as [u|] eqn:E1.
    - apply after_length in E1. lia.
    - destruct (after "-" t) as [u|] eqn:E2; [|lia].
      apply after_length in E2. lia. }
  destruct (scan_digits_length t1) as [Hl _].
  destruct (scan_digits t1) as [d r']. cbn [snd] in Hl.
  cbn [String.length].
  destruct d; try discriminate; intros [= <-]; lia.
Qed.

Lemma strip_prefix_length (lit s r : string) :
  strip_prefix lit s = Some r ->
  String.length s = String.length lit + String.length r.
Proof.
  revert s. induction lit as [|a lit IH]; intros s; cbn [strip_prefix].
  - now intros [= <-].
  - destruct s as [|b s]; [discriminate|]. destruct (a =? b)%char; [|discriminate].
    intros Hs. cbn [String.length]. now rewrite (IH s Hs).
Qed.

Lemma expect_spec (lit : string) (v : pyval) (s : string) :
  0 < String.length lit ->
  match expect lit v s with
  | Ok (_, r) => String.length r < String.length s
  | Raise e => decode_error e
  end.
Proof.
  intros Hl. unfold expect. destruct (strip_prefix lit s) as [r|] eqn:E.
  - apply strip_prefix_length in E. lia.
  - now eexists.
Qed.

Lemma scan_constant_spec (s : string) :
  match scan_constant s with
  | Ok (_, r) => String.length r < String.length s
  | Raise e => decode_error e
  end.
Proof.
  unfold scan_constant.
  destruct (strip_prefix "NaN" s) as [r|] eqn:E1;
    [apply strip_prefix_length in E1; cbn in E1; lia|].
  destruct (strip_prefix "Infinity" s) as [r|] eqn:E2;
    [apply strip_prefix_length in E2; cbn in E2; lia|].
  destruct (strip_prefix "-Infinity" s) as [r|] eqn:E3;
    [apply strip_prefix_length in E3; cbn in E3; lia|].
  now eexists.
Qed.

Lemma scan_number_spec (s : string) :
  match scan_number s with
  | Ok (_, r) => String.length r < String.length s
  | Raise e => decode_error e
  end.
Proof.
  unfold scan_number.
  set (s1 := match after "-" s with Some t => t | None => s end).
  assert (H1 : String.length s1 <= String.length s).
  { unfold s1. destruct (after "-" s) as [t|] eqn:E; [|lia].
    apply after_length in E. lia. }
  pose proof (scan_nat_spec s1) as Hn.
  destruct (scan_nat s1) as [[n r]|x]; [|apply scan_constant_spec].
  cbv zeta.
  set (r1 := match scan_frac r with Some r' => r' | None => r end).
  set (r2 := match scan_exp r1 with Some r' => r' | None => r1 end).
  assert (Hr1 : String.length r1 <= String.length r).
  { unfold r1. destruct (scan_frac r) eqn:E; [|lia].
    now apply scan_frac_length. }
  assert (Hr2 : String.length r2 <= String.length r1).
  { unfold r2. destruct (scan_exp r1) eqn:E; [|lia].
    now apply scan_exp_length. }
  destruct (String.length r2 <? String.length r)%nat; lia.
Qed.

Lemma scan_fuel (n : nat) :
  (forall s, scanned 0 n s (scan_value n s))
  /\ (forall s, scanned 1 n s (scan_elems n s))
  /\ (forall s, scanned 1 n s (scan_members n s)).
Proof.
  induction n as [|n (IHv & IHl & IHd)].
  { repeat split; intros s; cbn; lia. }
  split; [|split]; intros s.
  - destruct s as [|c s']; [cbn; now eexists|]. rewrite scan_value_S.
    destruct (c =? dquote)%char.
    { pose proof (scan_string_spec s') as Hs.
      destruct (scan_string s') as [[u r]|x]; cbn [scanned String.length]; [lia|auto]. }
    destruct (c =? "{")%char.
    { pose proof (skip_ws_length s') as Hw.
      destruct (after "}" (skip_ws s')) as [r|] eqn:E.
      - apply after_length in E. cbn [scanned String.length]. lia.
      - specialize (IHd (skip_ws s')).
        destruct (scan_members n (skip_ws s')) as [[ps r]|x];
          cbn [scanned String.length] in *; [lia|]. intros Hn. apply IHd. lia. }
    destruct (c =? "[")%char.
    { pose proof (skip_ws_length s') as Hw.
      destruct (after "]" (skip_ws s')) as [r|] eqn:E.
      - apply after_length in E. cbn [scanned String.length]. lia.
      - specialize (IHl (skip_ws s')).
        destruct (scan_elems n (skip_ws s')) as [[ps r]|x];
          cbn [scanned String.length] in *; [lia|]. intros Hn. apply IHl. lia. }
    destruct (c =? "n")%char.
    { pose proof (expect_spec "null" PyNone (String c s')) as Hs.
      destruct (expect _ _ _) as [[u r]|x]; cbn [scanned]; [apply Hs; cbn; lia|].
      intros _. apply Hs. cbn. lia. }
    destruct (c =? "t")%char.
    { pose proof (expect_spec "true" (PyBool true) (String c s')) as Hs.
      destruct (expect _ _ _) as [[u r]|x]; cbn [scanned]; [apply Hs; cbn; lia|].
      intros _. apply Hs. cbn. lia. }
    destruct (c =? "f")%char.
    { pose proof (expect_spec "false" (PyBool false) (String c s')) as Hs.
      destruct (expect _ _ _) as [[u r]|x]; cbn [scanned]; [apply Hs; cbn; lia|].
      intros _. apply Hs. cbn. lia. }
    pose proof (scan_number_spec (String c s')) as Hs.
    destruct (scan_number _) as [[u r]|x]; cbn [scanned]; auto.
  - rewrite scan_elems_S. specialize (IHv s).
    destruct (scan_value n s) as [[v r]|x]; cbn [scanned] in *;
      [|intros Hn; apply IHv; lia].
    pose proof (skip_ws_length r) as Hw.
    destruct (after "," (skip_ws r)) as [r1|] eqn:E1.
    + apply after_length in E1. pose proof (skip_ws_length r1) as Hw1.
      specialize (IHl (skip_ws r1)).
      destruct (scan_elems n (skip_ws r1)) as [[vs r2]|x];
        cbn [scanned] in *; [lia|]. intros Hn. apply IHl. lia.
    + destruct (after "]" (skip_ws r)) as [r1|] eqn:E2.
      * apply after_length in E2. cbn [scanned]. lia.
      * cbn. intros _. now eexists.
  - rewrite scan_members_S.
    destruct (after dquote s) as [s'|] eqn:E0; [|cbn; intros _; now eexists].
    apply after_length in E0.
    pose proof (scan_string_spec s') as Hs.
    destruct (scan_string s') as [[k r]|x]; [|cbn; auto].
    pose proof (skip_ws_length r) as Hw.
    destruct (after ":" (skip_ws r)) as [r1|] eqn:E1; [|cbn; intros _; now eexists].
    apply after_length in E1. pose proof (skip_ws_length r1) as Hw1.
    specialize (IHv (skip_ws r1)).
    destruct (scan_value n (skip_ws r1)) as [[v r2]|x]; cbn [scanned] in *;
      [|intros Hn; apply IHv; lia].
    pose proof (skip_ws_length r2) as Hw2.
    destruct (after "," (skip_ws r2)) as [r3|] eqn:E3.
    + apply after_length in E3. pose proof (skip_ws_length r3) as Hw3.
      specialize (IHd (skip_ws r3)).
      destruct (scan_members n (skip_ws r3)) as [[ps r4]|x];
        cbn [scanned] in *; [lia|]. intros Hn. apply IHd. lia.
    + destruct (after "}" (skip_ws r2)) as [r3|] eqn:E4.
      * apply after_length in E4. cbn [scanned]. lia.
      * cbn. intros _. now eexists.
Qed.

Lemma json_loads_raises (s : string) (e : exn) :
  json_loads s = Raise e -> decode_error e.
Proof.
  unfold json_loads. destruct (scan_fuel (fuel_for s)) as [Hv _].
  specialize (Hv (skip_ws s)). pose proof (skip_ws_length s) as Hw.
  destruct (scan_value _ _) as [[v r]|x]; cbn [scanned] in Hv.
  - destruct (skip_ws r); [discriminate|]. intros [= <-]. now eexists.
  - intros [= <-]. apply Hv. unfold fuel_for. lia.
Qed.

(* ================================================================== *)
(** * Facts about [nodes.py] *)
(* ================================================================== *)

Import nodes.

Lemma BaseNode_handle_process (process : process_fn) (msg : Message) :
  BaseNode_handle process msg = process msg.
Proof. unfold BaseNode_handle. now destruct (process msg). Qed.

(** ** The JSON converters *)

Lemma decode_then_encode_print (v : pyval) (ct : string) (m : pydict) :
  wf v = true ->
  decode_then_encode
    {| payload := PyStr (json_dumps v); content_type := ct; meta := m |}
  = Ok {| payload := PyStr (json_dumps v);
          content_type := "application/json"; meta := m |}.
Proof.
  intros Hv. unfold decode_then_encode. rewrite !BaseNode_handle_process.
  unfold JsonToPython_process. cbn [payload py_json_loads].
  rewrite loads_dumps by assumption. reflexivity.
Qed.

(** C8: the chain of [JsonToPython] and [PythonToJson], given a message
    whose payload is the text [{"a": 1}], returns a message whose payload
    decodes to the same value as the input, the dict with the one key [a]
    bound to 1, and whose content type is [application/json]. *)
Theorem json_chain_roundtrip (ct : string) (m : pydict) :
  let msg := {| payload := PyStr (q "{'a': 1}"); content_type := ct;
                meta := m |} in
  exists out,
    decode_then_encode msg = Ok out
    /\ py_json_loads (payload msg) = Ok (PyDict [("a", PyInt 1)])
    /\ py_json_loads (payload out) = Ok (PyDict [("a", PyInt 1)])
    /\ content_type out = "application/json".
Proof.
  cbn zeta. eexists. split; [reflexivity|]. repeat split.
Qed.

(** ** [ThreadNode] *)

Section ThreadNodeFacts.
Variable process : process_fn.

Lemma enter_sound x x' : sound process x -> enter x = Some x' -> sound process x'.
Proof. destruct x; try discriminate. intros _ [= <-]. cbn. auto. Qed.

Lemma take_sound x x' : sound process x -> take x = Some x' -> sound process x'.
Proof.
  destruct x as [|msg ex [r|]|]; try discriminate. cbn [take sound].
  intros [Hw [[Hq Hr]|[Hq Hr]]]; unfold worker_take; rewrite Hq;
    [|discriminate].
  rewrite Hr, Hw. cbn. intros [= <-]. cbn. auto.
Qed.

Lemma done_sound x x' :
  sound process x -> done process x = Some x' -> sound process x'.
Proof.
  destruct x as [|msg ex [r|]|]; try discriminate. cbn [done sound].
  intros [Hw [[Hq Hr]|[Hq Hr]]]; unfold worker_done; rewrite Hr;
    [discriminate|]. intros [= <-]. cbn. auto.
Qed.

Lemma resume_sound x x' :
  sound process x -> resume x = Some x' -> sound process x'.
Proof.
  destruct x as [|msg ex [r|]|]; try discriminate. cbn [resume sound].
  intros (_ & _ & _ & ->) [= <-]. reflexivity.
Qed.

Lemma at_index_Forall (P : Invocation -> Prop) f i st st' :
  (forall x x', P x -> f x = Some x' -> P x') ->
  Forall P st -> at_index f i st = Some st' -> Forall P st'.
Proof.
  intros Hf. revert i st'. induction st as [|x st IH]; intros i st' Hst.
  - destruct i; discriminate.
  - inversion Hst as [|? ? Hx Hrest]; subst. destruct i as [|j]; cbn [at_index].
    + destruct (f x) as [x'|] eqn:E; [|discriminate]. intros [= <-].
      constructor; [now apply (Hf x) | assumption].
    + destruct (at_index f j st) as [rest'|] eqn:E; [|discriminate].
      intros [= <-]. constructor; [assumption | now apply (IH j)].
Qed.

Lemma fire_sound ev st st' :
  Forall (sound process) st -> fire process ev st = Some st' ->
  Forall (sound process) st'.
Proof.
  intros Hst. destruct ev as [msg|i|i|i|i]; cbn [fire].
  - intros [= <-]. apply Forall_app. split; [assumption|].
    constructor; [exact I | constructor].
  - apply at_index_Forall; [apply enter_sound | assumption].
  - apply at_index_Forall; [apply take_sound | assumption].
  - apply at_index_Forall; [apply done_sound | assumption].
  - apply at_index_Forall; [apply resume_sound | assumption].
Qed.

Lemma run_sound evs st st' :
  Forall (sound process) st -> run process evs st = Some st' ->
  Forall (sound process) st'.
Proof.
  revert st. induction evs as [|ev evs IH]; intros st Hst; cbn [run].
  - now intros [= <-].
  - destruct (fire process ev st) as [st1|] eqn:E; [|discriminate].
    apply IH. now apply (fire_sound ev st).
Qed.

Lemma sound_active x : sound process x -> active x <= 1.
Proof.
  destruct x as [|msg ex [r|]|]; cbn [sound active]; try lia.
  - intros (_ & _ & -> & _). cbn. lia.
  - intros [_ [[_ ->]|[_ ->]]]; cbn; lia.
Qed.

Lemma counter_bound st :
  Forall (sound process) st -> counter st <= List.length st.
Proof.
  unfold counter. induction 1 as [|x st Hx Hst IH]; [cbn; lia|].
  change (list_sum (map active (x :: st)))
    with (active x + list_sum (map active st)).
  cbn [List.length]. pose proof (sound_active x Hx). lia.
Qed.

(** C1, as amended: every call of [ThreadNode.handle] opens an executor of
    its own with one worker, so at every moment of every interleaving each
    invocation has at most one worker inside [process], and the counter of
    workers inside [process] is at most the number of invocations of the
    node in flight. *)
Theorem one_worker_per_invocation (evs : list Event) (st : list Invocation) :
  run process evs [] = Some st ->
  Forall (fun x => active x <= 1) st /\ counter st <= List.length st.
Proof.
  intros Hrun. pose proof (run_sound evs [] st (Forall_nil _) Hrun) as Hs.
  split; [|now apply counter_bound].
  eapply Forall_impl; [|exact Hs]. apply sound_active.
Qed.


Lemma run_app evs1 evs2 st :
  run process (evs1 ++ evs2) st =
  match run process evs1 st with
  | Some st' => run process evs2 st'
  | None => None
  end.
Proof.
  revert st. induction evs1 as [|ev evs1 IH]; intros st; [reflexivity|].
  cbn [List.app run]. destruct (fire process ev st); [apply IH | reflexivity].
Qed.


End ThreadNodeFacts.

(** C1, as stated, fails: two overlapping calls on the same node reach a
    state where the counter is 2. *)
Lemma overlapping_invocations_run_together :
  ~ (forall evs st,
       run BaseNode_process evs [] = Some st -> counter st <= 1).
Proof.
  intros Hc.
  specialize (Hc (two_calls (views.sample_message 0)) _ eq_refl).
  cbn in Hc. lia.
Qed.

Lemma one_worker_per_invocation_witness :
  exists st,
    run BaseNode_process (two_calls (views.sample_message 0)) [] = Some st
    /\ Forall (fun x => active x <= 1) st
    /\ counter st = 2 /\ List.length st = 2.
Proof.
  eexists. split; [reflexivity|].
  split; [|split; reflexivity].
  apply (one_worker_per_invocation BaseNode_process
           (two_calls (views.sample_message 0)) _ eq_refl).
Defined.

(* ================================================================== *)
(** * Facts about [views.py] *)
(* ================================================================== *)

Import views.

(** ** Dicts *)

Section DictFacts.
Context {V : Type}.
Implicit Types (d : list (string * V)) (k : string) (v : V).

Lemma dict_get_set_same k v d : dict_get k (dict_set k v d) = Some v.
Proof.
  induction d as [|[k0 x] d IH]; cbn [dict_set dict_get].
  - now rewrite String.eqb_refl.
  - destruct (k0 =? k) eqn:E; cbn [dict_get].
    + now rewrite String.eqb_refl.
    + now rewrite E.
Qed.

Lemma dict_get_set_other k k' v d :
  k <> k' -> dict_get k (dict_set k' v d) = dict_get k d.
Proof.
  intros Hk. apply String.eqb_neq in Hk. rewrite String.eqb_sym in Hk.
  induction d as [|[k0 x] d IH]; cbn [dict_set dict_get].
  - now rewrite Hk.
  - destruct (String.eqb_spec k0 k') as [->|Hn]; cbn [dict_get].
    + now rewrite Hk.
    + now rewrite IH.
Qed.

Lemma dict_get_remove k k' d :
  k <> k' -> dict_get k (dict_remove k' d) = dict_get k d.
Proof.
  intros Hk. induction d as [|[k0 x] d IH]; [reflexivity|].
  cbn [dict_remove dict_get].
  destruct (String.eqb_spec k0 k') as [->|Hn].
  - destruct (String.eqb_spec k' k) as [->|_]; [congruence | reflexivity].
  - cbn [dict_get]. now rewrite IH.
Qed.
End DictFacts.

Lemma keys_fresh_set (k k' : string) (v : pyval) (d : pydict) :
  keys_fresh k' (dict_set k v d) = keys_fresh k' d && negb (k =? k').
Proof.
  induction d as [|[k0 x] d IH]; cbn [dict_set keys_fresh].
  - now rewrite andb_true_r.
  - destruct (String.eqb_spec k0 k) as [->|Hn]; cbn [keys_fresh].
    + destruct (k =? k'); cbn; [reflexivity | now rewrite andb_true_r].
    + rewrite IH. now rewrite andb_assoc.
Qed.

Lemma wf_members_set (k : string) (v : pyval) (d : pydict) :
  wf_members d = true -> wf v = true -> wf_members (dict_set k v d) = true.
Proof.
  intros Hd Hv. induction d as [|[k0 x] d IH]; cbn [dict_set wf_members].
  - now rewrite Hv.
  - cbn [wf_members] in Hd. apply andb_true_iff in Hd as [Hd Hd'].
    apply andb_true_iff in Hd as [Hk Hx].
    destruct (String.eqb_spec k0 k) as [->|Hn]; cbn [wf_members].
    + now rewrite Hk, Hv, Hd'.
    + rewrite keys_fresh_set, Hk, Hx, IH by assumption.
      apply String.eqb_neq in Hn. rewrite String.eqb_sym in Hn. now rewrite Hn.
Qed.

(** ** Entries of a search result *)

Lemma dict_get_lift (k : string) (d : pydict) :
  dict_get k (lift_entry d) = option_map EVal (dict_get k d).
Proof.
  induction d as [|[k0 x] d IH]; [reflexivity|].
  cbn [lift_entry map dict_get fst snd]. destruct (k0 =? k); [reflexivity|].
  exact IH.
Qed.

Lemma all_vals_lift (d : pydict) : all_vals (lift_entry d) = true.
Proof. induction d as [|[k0 x] d IH]; [reflexivity | exact IH]. Qed.

Lemma all_vals_msg_first (k : string) (e : Entry) :
  all_vals e = true -> msg_first k e = true.
Proof.
  induction e as [|[k0 x] e IH]; [reflexivity|].
  cbn [all_vals forallb msg_first snd]. intros He.
  apply andb_true_iff in He as [Hx He].
  destruct (k0 =? k); [exact He|]. rewrite Hx. now apply IH.
Qed.

Lemma all_vals_set (k : string) (v : pyval) (e : Entry) :
  all_vals e = true -> all_vals (dict_set k (EVal v) e) = true.
Proof.
  induction e as [|[k0 x] e IH]; [reflexivity|].
  cbn [all_vals forallb dict_set snd]. intros He.
  apply andb_true_iff in He as [Hx He].
  destruct (k0 =? k); cbn [forallb snd is_val]; [exact He|].
  rewrite Hx. now apply IH.
Qed.

Lemma msg_first_set (k : string) (x : entry_val) (e : Entry) :
  msg_first k e = true -> msg_first k (dict_set k x e) = true.
Proof.
  induction e as [|[k0 x0] e IH]; cbn [dict_set msg_first].
  - now rewrite String.eqb_refl.
  - destruct (k0 =? k) eqn:E; cbn [msg_first].
    + now rewrite String.eqb_refl.
    + rewrite E. intros He. apply andb_true_iff in He as [Hx He].
      rewrite Hx. now apply IH.
Qed.

Lemma msg_first_set_val (k k' : string) (v : pyval) (e : Entry) :
  msg_first k e = true -> msg_first k (dict_set k' (EVal v) e) = true.
Proof.
  induction e as [|[k0 x0] e IH]; cbn [dict_set msg_first].
  - destruct (k' =? k); reflexivity.
  - destruct (String.eqb_spec k0 k') as [->|Hn]; cbn [msg_first].
    + destruct (k' =? k); [tauto|]. intros He.
      apply andb_true_iff in He as [_ He]. exact He.
    + destruct (k0 =? k).
      * apply all_vals_set.
      * intros He. apply andb_true_iff in He as [Hx He].
        rewrite Hx. now apply IH.
Qed.

Lemma msg_first_clear (k : string) (v : pyval) (e : Entry) :
  msg_first k e = true -> all_vals (dict_set k (EVal v) e) = true.
Proof.
  induction e as [|[k0 x0] e IH]; cbn [dict_set msg_first].
  - reflexivity.
  - destruct (k0 =? k); cbn [all_vals forallb snd is_val].
    + tauto.
    + intros He. apply andb_true_iff in He as [Hx He].
      rewrite Hx. now apply IH.
Qed.

Lemma all_vals_is_lift (e : Entry) :
  all_vals e = true -> exists d, e = lift_entry d.
Proof.
  induction e as [|[k0 [v|m]] e IH]; cbn [all_vals forallb snd is_val].
  - now exists [].
  - intros He. destruct (IH He) as (d & ->). now exists ((k0, v) :: d).
  - discriminate.
Qed.

Lemma loads_diagnostic (data : string) :
  json_loads ("cannot parse ws json data (" ++ data ++ ")")
  = Raise (JSONDecodeError "Expecting value").
Proof. reflexivity. Qed.

(** ** The handlers *)

Section HandlerFacts.
Context {env : Collaborators}.

Lemma send_str_rpc (v data id : pyval) (frames : list string) (st : State) :
  wf v = true -> py_getitem data "id" = Ok id ->
  send_str (json_dumps v) (with_ws (rpc (Some data) frames) st) =
  (Ok tt,
   with_ws (rpc (Some data) (frames ++ [json_dumps (SuccessResponse v id)])) st).
Proof.
  intros Hv Hid. unfold send_str, bind, gets. cbn [ws with_ws is_rpc rpc].
  unfold RPC_send_str, bind, lift, gets. rewrite loads_dumps by assumption.
  cbn [ws with_ws rpc_data rpc ret]. now rewrite Hid.
Qed.

Lemma send_str_rpc_bad (message : string) (e : exn) (st : State) :
  is_rpc (ws st) = true -> json_loads message = Raise e ->
  send_str message st = (Raise e, st).
Proof.
  intros Hr He. unfold send_str, bind, gets. rewrite Hr.
  unfold RPC_send_str, bind, lift. now rewrite He.
Qed.

Lemma try_append_entry (chan : option Channel) (attr : string)
      (method : Channel -> outcome Message) :
  try_append []
    (let* c := attr_of chan attr in
     let* msg_res := method c in
     Ok (msg_to_dict msg_res))
  = [entry_of (on_channel attr chan method)].
Proof.
  destruct chan as [c|]; cbn; [|reflexivity].
  destruct (method c); reflexivity.
Qed.

(** C3: [view_msg], [preview_msg] and [replay_msg] do nothing but send the
    one-entry list made of the outcome of the lookup (or replay), on
    whatever socket they are given: no exception of the lookup leaves the
    handler.  The entry is [{"error": str(exc)}] when the lookup raised
    [exc], which includes a channel name that [get_channel] does not
    find; and on a socket of its own the handler returns normally with
    that one frame sent. *)
Theorem lookup_failures_become_entries (channelname message_id : pyval)
        (ws_arg : option WebSocket) (st : State) :
  let chan := get_channel channelname (all_channels st) in
  let answer (entry : pyval) :=
    (open_ws ws_arg ;; send_str (json_dumps (PyList [entry]))) st in
  view_msg channelname message_id ws_arg st =
    answer (entry_of (on_channel "message_store" chan
              (fun c => get_msg_content (message_store c) message_id)))
  /\ preview_msg channelname message_id ws_arg st =
    answer (entry_of (on_channel "message_store" chan
              (fun c => get_preview_str (message_store c) message_id)))
  /\ replay_msg channelname message_id ws_arg st =
    answer (entry_of (on_channel "replay" chan
              (fun c => chan_replay c message_id)))
  /\ (forall exc, entry_of (Raise exc) = PyDict [("error", PyStr (exn_str exc))])
  /\ (forall attr method,
        on_channel attr None method =
        Raise (AttributeError
                 ("'NoneType' object has no attribute '" ++ attr ++ "'")))
  /\ (forall entry,
        (open_ws None ;; send_str (json_dumps (PyList [entry]))) st =
        (Ok tt, with_ws (plain [json_dumps (PyList [entry])]) st)).
Proof.
  cbn zeta. repeat split.
  - cbv [view_msg bind open_ws modify gets].
    destruct ws_arg; cbn [all_channels with_ws];
      rewrite try_append_entry; reflexivity.
  - cbv [preview_msg bind open_ws modify gets].
    destruct ws_arg; cbn [all_channels with_ws];
      rewrite try_append_entry; reflexivity.
  - cbv [replay_msg bind open_ws modify gets].
    destruct ws_arg; cbn [all_channels with_ws];
      rewrite try_append_entry; reflexivity.
Qed.

(** C4, on the code: [start_channel] and [stop_channel] given a name that
    [get_channel] does not find call a method on [None], and the
    [AttributeError] leaves the handler with nothing sent. *)
Theorem unknown_channel_escapes (channelname : pyval)
        (ws_arg : option WebSocket) (st : State) :
  get_channel channelname (all_channels st) = None ->
  start_channel channelname ws_arg st =
    (Raise (AttributeError "'NoneType' object has no attribute 'start'"),
     with_ws (opened ws_arg) st)
  /\ stop_channel channelname ws_arg st =
    (Raise (AttributeError "'NoneType' object has no attribute 'stop'"),
     with_ws (opened ws_arg) st).
Proof.
  intros Hc. unfold start_channel, stop_channel, bind, open_ws, gets.
  destruct ws_arg as [w|]; cbn; rewrite Hc; split; reflexivity.
Qed.

(** C5, on the code: for a frame that does not parse, the diagnostic goes
    through [RPCWebSocketResponse.send_str], which parses it as JSON; the
    [JSONDecodeError] of that leaves [backport_old_client] with no frame
    sent. *)
Theorem malformed_frame_raises (data : string) (rest : list string)
        (e : exn) (st : State) :
  json_loads data = Raise e ->
  backport_old_client (data :: rest) st =
  (Raise (JSONDecodeError "Expecting value"), with_ws (rpc None []) st).
Proof.
  intros He. unfold backport_old_client, bind, modify.
  cbn [session_loop]. unfold bind, loop_body. rewrite He.
  unfold bind.
  rewrite (send_str_rpc_bad _ (JSONDecodeError "Expecting value"));
    [reflexivity | reflexivity | apply loads_diagnostic].
Qed.

Lemma top_level_wf (chans : list Channel) :
  forallb chan_wf chans = true -> wf (PyList (top_level chans)) = true.
Proof.
  rewrite wf_PyList. induction chans as [|c chans IH]; [reflexivity|].
  cbn [forallb top_level]. intros Hc. apply andb_true_iff in Hc as [Hc Hcs].
  apply andb_true_iff in Hc as [Hd Hs].
  destruct (parent c); [now apply IH|].
  cbn [wf_elems]. rewrite wf_PyDict, wf_members_set, IH by assumption.
  reflexivity.
Qed.

(** C6: on the frame [{"method": "channels", "params": [null], "id": 7}]
    the legacy session sends one frame, the JSON-RPC success envelope with
    id 7 around the very list that [list_channels] sends when called
    directly; and every message a handler sends on the session's socket is
    parsed and sent again inside the envelope that carries the [id] of the
    request. *)
Theorem legacy_channels_wraps_list_channels (st : State) :
  forallb chan_wf (all_channels st) = true ->
  let data := PyList (top_level (all_channels st)) in
  list_channels None st = (Ok tt, with_ws (plain [json_dumps data]) st)
  /\ backport_old_client
       [q "{'method': 'channels', 'params': [null], 'id': 7}"] st =
     (Ok ReturnNone,
      with_ws (rpc (Some (PyDict [("params", PyList [PyNone]);
                                  ("id", PyInt 7)]))
                   [json_dumps (SuccessResponse data (PyInt 7))]) st)
  /\ (forall (v request_data id : pyval) (frames : list string),
        wf v = true -> py_getitem request_data "id" = Ok id ->
        send_str (json_dumps v) (with_ws (rpc (Some request_data) frames) st) =
        (Ok tt,
         with_ws (rpc (Some request_data)
                      (frames ++ [json_dumps (SuccessResponse v id)])) st)).
Proof.
  intros Hw data. split; [reflexivity|]. split.
  - unfold backport_old_client, bind, modify. cbn [session_loop].
    unfold bind at 1. unfold loop_body.
    change (json_loads (q "{'method': 'channels', 'params': [null], 'id': 7}"))
      with (Ok (PyDict [("method", PyStr "channels");
                        ("params", PyList [PyNone]); ("id", PyInt 7)])).
    cbv [bind set_rpc_attrs modify lift py_pop dict_get dict_remove
         String.eqb Ascii.eqb Bool.eqb py_get py_index nth_error dispatch
         py_eq_str with_session_ws gets list_channels open_ws].
    cbn [ws with_ws is_rpc rpc_data sent all_channels].
    pose proof (send_str_rpc data
      (PyDict [("params", PyList [PyNone]); ("id", PyInt 7)]) (PyInt 7) [] st
      (top_level_wf _ Hw) eq_refl) as Hs.
    unfold rpc, with_ws in Hs. cbn [request ws all_channels] in Hs.
    fold data. unfold with_ws. cbn [request all_channels ws].
    change (is_rpc RPCWebSocketResponse) with true.
    change (sent RPCWebSocketResponse) with (@nil string).
    rewrite Hs. reflexivity.
  - intros. now apply send_str_rpc.
Qed.

Lemma render_entry_dict (r : Stored) :
  exists d, render (entry_dict r) = Ok (lift_entry d) /\ rendered r (PyDict d).
Proof.
  set (m := message r).
  set (e1 := dict_set "timestamp" (EVal (PyStr (msg_timestamp_str m)))
               (entry_dict r)).
  set (e2 := dict_set "message" (EVal (PyStr (msg_to_json m))) e1).
  assert (H1 : msg_first "message" e1 = true).
  { apply msg_first_set_val, msg_first_set, all_vals_msg_first, all_vals_lift. }
  destruct (all_vals_is_lift e2 (msg_first_clear _ _ _ H1)) as (d & Hd).
  exists d. split.
  - assert (Hm1 : entry_message "timestamp_str" (entry_dict r) = Ok m).
    { unfold entry_message, entry_dict. now rewrite dict_get_set_same. }
    assert (Hm2 : entry_message "to_json" e1 = Ok m).
    { unfold entry_message, e1, entry_dict.
      now rewrite dict_get_set_other, dict_get_set_same by discriminate. }
    unfold render. rewrite Hm1. cbn [obind]. fold e1. rewrite Hm2.
    cbn [obind]. fold e2. now rewrite Hd.
  - exists d. split; [reflexivity|].
    assert (Hg : forall k, option_map EVal (dict_get k d) = dict_get k e2).
    { intros k. now rewrite <- dict_get_lift, <- Hd. }
    repeat split.
    + specialize (Hg "timestamp"). unfold e2, e1 in Hg.
      rewrite dict_get_set_other, dict_get_set_same in Hg by discriminate.
      unfold m in Hg. destruct (dict_get "timestamp" d); cbn in Hg; congruence.
    + specialize (Hg "message"). unfold e2 in Hg.
      rewrite dict_get_set_same in Hg.
      unfold m in Hg. destruct (dict_get "message" d); cbn in Hg; congruence.
    + intros k Ht Hm. specialize (Hg k). unfold e2, e1, entry_dict in Hg.
      rewrite !dict_get_set_other, dict_get_lift in Hg by assumption.
      destruct (dict_get k d), (dict_get k (fields r)); cbn in Hg; congruence.
Qed.

Lemma entry_to_py_lift (d : pydict) : entry_to_py (lift_entry d) = Ok d.
Proof.
  induction d as [|[k x] d IH]; [reflexivity|].
  cbn [lift_entry map entry_to_py fst snd]. fold (lift_entry d).
  now rewrite IH.
Qed.

Lemma render_page (page : list Stored) :
  exists messages,
    (let* es := render_all (map entry_dict page) in entries_to_py es)
    = Ok messages
    /\ Forall2 rendered page messages.
Proof.
  induction page as [|r page (ms & Hms & Hall)].
  - exists []. split; [reflexivity | constructor].
  - destruct (render_entry_dict r) as (d & Hd & Hr).
    exists (PyDict d :: ms). split; [|now constructor].
    cbn [map render_all]. rewrite Hd. cbn [obind].
    destruct (render_all (map entry_dict page)) as [es|e]; [|discriminate].
    cbn [obind entries_to_py] in *. rewrite entry_to_py_lift, Hms.
    reflexivity.
Qed.

(** C7: when the channel exists and [start] and [count] convert to
    integers, [list_msgs] sends one frame, the dict of [messages] and
    [total]: at most [count] entries, each the fields of a stored message
    with its rendered timestamp and its serialized body as strings, and
    the size of the store as [total], whatever [start] is.  An absent
    [start] is 0, an absent [count] 10 and an absent [order_by]
    ["timestamp"]. *)
Theorem list_msgs_paginates (channelname : pyval) (chan : Channel)
        (first limit : Z) (st : State) :
  let args := query (request st) in
  let store := message_store chan in
  get_channel channelname (all_channels st) = Some chan ->
  int_arg "start" 0 args = Ok first ->
  int_arg "count" 10 args = Ok limit ->
  exists messages,
    list_msgs channelname None st =
    (Ok tt,
     with_ws (plain [json_dumps
       (PyDict [("messages", PyList messages);
                ("total", PyInt (Z.of_nat (List.length (stored store))))])]) st)
    /\ List.length messages <= Z.to_nat limit
    /\ Forall2 rendered (page_of store (search_args first limit args)) messages
    /\ (dict_get "start" args = None -> first = 0%Z)
    /\ (dict_get "count" args = None -> limit = 10%Z)
    /\ (dict_get "order_by" args = None ->
        order_by (search_args first limit args) = "timestamp").
Proof.
  intros args store Hc Hs Hl.
  destruct (render_page (page_of store (search_args first limit args)))
    as (messages & Hm & Hall).
  exists messages. repeat split.
  - unfold list_msgs, bind, open_ws, modify, gets, lift.
    cbn [all_channels with_ws request]. rewrite Hc. fold args.
    rewrite Hs, Hl. cbn [attr_of].
    fold (search_args first limit args).
    change (search (message_store chan) (search_args first limit args))
      with (map entry_dict (page_of store (search_args first limit args))).
    destruct (render_all _) as [es|e]; [|discriminate].
    cbn [obind] in Hm. rewrite Hm. reflexivity.
  - apply Forall2_length in Hall. rewrite <- Hall. unfold page_of.
    rewrite length_firstn. cbn [count search_args]. lia.
  - exact Hall.
  - intros Hn. unfold int_arg in Hs. rewrite Hn in Hs. congruence.
  - intros Hn. unfold int_arg in Hl. rewrite Hn in Hl. congruence.
  - intros Hn. cbn [order_by search_args]. now rewrite Hn.
Qed.



(** A frame that parses to a JSON value other than an object has no
    [pop] taking a key: the session raises at the extraction of
    [method] as well, a [TypeError] for an array and an
    [AttributeError] otherwise, with no frame sent. *)
Lemma frame_not_an_object (data : string) (v : pyval)
      (rest : list string) (st : State) :
  json_loads data = Ok v ->
  (forall d, v <> PyDict d) ->
  exists e,
    backport_old_client (data :: rest) st =
    (Raise e, with_ws (rpc (Some v) []) st)
    /\ e <> KeyError (PyStr "method").
Proof.
  intros Hd Hv. unfold backport_old_client, bind, modify.
  cbn [session_loop]. unfold bind, loop_body. rewrite Hd.
  unfold bind, set_rpc_attrs, modify, lift.
  destruct v; cbn [py_pop];
    try (eexists; split; [reflexivity | discriminate]).
  exfalso. eapply Hv. reflexivity.
Qed.
End HandlerFacts.

(** ** The theorems at concrete inputs *)

(** The frames used below. *)
Lemma frames_parse :
  json_loads (q "{'method': 'channels', 'params': [null], 'id': 7}")
  = Ok (PyDict [("method", PyStr "channels"); ("params", PyList [PyNone]);
                ("id", PyInt 7)])
  /\ json_loads (q "{'id': 1}") = Ok (PyDict [("id", PyInt 1)])
  /\ json_loads "not json" = Raise (JSONDecodeError "Expecting value").
Proof. repeat split. Qed.


Lemma unknown_channel_escapes_witness :
  get_channel (PyStr "nope") (all_channels sample_state) = None
  /\ start_channel (env := sample) (PyStr "nope") None sample_state =
     (Raise (AttributeError "'NoneType' object has no attribute 'start'"),
      sample_state)
  /\ stop_channel (env := sample) (PyStr "nope") None sample_state =
     (Raise (AttributeError "'NoneType' object has no attribute 'stop'"),
      sample_state).
Proof.
  split; [reflexivity|].
  exact (unknown_channel_escapes (env := sample) (PyStr "nope") None
           sample_state eq_refl).
Defined.

(** The same in a legacy session: the exception ends the session, and the
    frame that follows is not read. *)
Example start_unknown_channel_ends_session :
  backport_old_client (env := sample)
    [q "{'method': 'start_channel', 'params': ['nope'], 'id': 1}";
     q "{'method': 'channels', 'params': [null], 'id': 2}"] sample_state
  = (Raise (AttributeError "'NoneType' object has no attribute 'start'"),
     with_ws (rpc (Some (PyDict [("params", PyList [PyStr "nope"]);
                                 ("id", PyInt 1)])) []) sample_state).
Proof. vm_compute. reflexivity. Qed.

Lemma malformed_frame_raises_witness :
  json_loads "not json" = Raise (JSONDecodeError "Expecting value")
  /\ backport_old_client (env := sample)
       ["not json"; q "{'method': 'channels', 'params': [null], 'id': 7}"]
       sample_state
     = (Raise (JSONDecodeError "Expecting value"),
        with_ws (rpc None []) sample_state).
Proof.
  split; [reflexivity|].
  exact (malformed_frame_raises (env := sample) "not json" _ _ sample_state
           eq_refl).
Defined.

Lemma legacy_channels_wraps_list_channels_witness :
  forallb chan_wf (all_channels sample_state) = true
  /\ list_channels None sample_state =
     (Ok tt,
      with_ws (plain
        [q "[{'name': 'chan', 'status': 'WAITING', 'subchannels': []}]"])
        sample_state)
  /\ backport_old_client (env := sample)
       [q "{'method': 'channels', 'params': [null], 'id': 7}"] sample_state =
     (Ok ReturnNone,
      with_ws (rpc (Some (PyDict [("params", PyList [PyNone]);
                                  ("id", PyInt 7)]))
        [q ("{'jsonrpc': '2.0', 'result': "
            ++ "[{'name': 'chan', 'status': 'WAITING', 'subchannels': []}]"
            ++ ", 'id': 7}")]) sample_state).
Proof.
  split; [reflexivity|].
  destruct (legacy_channels_wraps_list_channels (env := sample) sample_state
              eq_refl) as (Hdirect & Hlegacy & _).
  split; [exact Hdirect | exact Hlegacy].
Defined.

(** A query for ten messages from the twentieth on. *)
Lemma list_msgs_paginates_witness :
  let st := with_request
              {| query := [("start", "20"); ("count", "10")] |} sample_state in
  get_channel (PyStr "chan") (all_channels st) = Some sample_channel
  /\ int_arg (env := sample) "start" 0 (query (request st)) = Ok 20%Z
  /\ int_arg (env := sample) "count" 10 (query (request st)) = Ok 10%Z
  /\ exists messages,
       list_msgs (env := sample) (PyStr "chan") None st =
       (Ok tt,
        with_ws (plain [json_dumps
          (PyDict [("messages", PyList messages); ("total", PyInt 25)])]) st)
       /\ List.length messages <= 10.
Proof.
  cbn zeta. split; [reflexivity|]. split; [reflexivity|].
  split; [reflexivity|].
  destruct (list_msgs_paginates (env := sample) (PyStr "chan") sample_channel
              20 10
              (with_request {| query := [("start", "20"); ("count", "10")] |}
                 sample_state)
              eq_refl eq_refl eq_refl) as (messages & Hsent & Hlen & _).
  exists messages. split; [exact Hsent | exact Hlen].
Defined.


(* ================================================================== *)
(** * Further facts about the [json] model *)
(* ================================================================== *)

(** ** Where an accepted text ends *)

Lemma closes_here (c : ascii) (r : string) :
  closer c = true -> closes r (String c r).
Proof. intros Hc. now exists "", c. Qed.

Lemma closes_cons (a : ascii) (r s : string) :
  closes r s -> closes r (String a s).
Proof. intros (pre & c & -> & Hc). now exists (String a pre), c. Qed.

Lemma closes_app (p r s : string) : closes r s -> closes r (p ++ s).
Proof.
  intros (pre & c & -> & Hc). exists (p ++ pre), c.
  now rewrite append_assoc.
Qed.

Lemma skip_ws_suffix (s : string) : exists w, s = w ++ skip_ws s.
Proof.
  induction s as [|c s [w IH]]; [now exists ""|]. cbn [skip_ws].
  destruct (is_ws c); [|now exists ""].
  exists (String c w). cbn. now rewrite <- IH.
Qed.

Lemma closes_skip_ws (r s : string) : closes r (skip_ws s) -> closes r s.
Proof.
  intros H. destruct (skip_ws_suffix s) as [w E]. rewrite E.
  now apply closes_app.
Qed.

Lemma after_eq (c : ascii) (s r : string) :
  after c s = Some r -> s = String c r.
Proof.
  destruct s as [|c' s]; [discriminate|]. cbn [after].
  destruct (Ascii.eqb_spec c' c); [|discriminate]. now intros [= <-]; subst.
Qed.

Lemma closes_after (c : ascii) (s r : string) :
  closer c = true -> after c s = Some r -> closes r s.
Proof. intros Hc E. rewrite (after_eq _ _ _ E). now apply closes_here. Qed.

Lemma scan_string_closes (s u r : string) :
  scan_string s = Ok (u, r) -> closes r s.
Proof.
  revert u. induction s as [s IH] using (well_founded_induction
    (well_founded_ltof _ String.length)). unfold ltof in IH. intros u.
  destruct s as [|c s]; cbn [scan_string]; [discriminate|].
  destruct (Ascii.eqb_spec c dquote) as [->|_].
  { intros [= _ <-]. now apply closes_here. }
  destruct (c =? backslash)%char.
  - destruct s as [|e s2]; [discriminate|].
    destruct (e =? "u")%char.
    + destruct s2 as [|h1 [|h2 [|h3 [|h4 s3]]]]; try discriminate.
      destruct (hex4 h1 h2 h3 h4) as [n|]; [|discriminate].
      destruct (scan_string s3) as [[u' r']|x] eqn:E; [|discriminate].
      intros [= _ <-]. do 6 apply closes_cons.
      apply (IH s3) with (u := u'); [cbn; lia | exact E].
    + destruct (simple_escape e); [|discriminate].
      destruct (scan_string s2) as [[u' r']|x] eqn:E; [|discriminate].
      intros [= _ <-]. do 2 apply closes_cons.
      apply (IH s2) with (u := u'); [cbn; lia | exact E].
  - destruct (N_of_ascii c <? 32)%N; [discriminate|].
    destruct (scan_string s) as [[u' r']|x] eqn:E; [|discriminate].
    intros [= _ <-]. apply closes_cons.
    apply (IH s) with (u := u'); [cbn; lia | exact E].
Qed.

Lemma closer_digit (c : ascii) D : digit_of c = Some D -> closer c = true.
Proof. unfold closer. now intros ->. Qed.

Lemma digit_of_not_Nil (c : ascii) D (d : Decimal.uint) :
  digit_of c = Some D -> D d <> Decimal.Nil.
Proof.
  each_char c; cbn; try discriminate; intros [= <-]; discriminate.
Qed.

Lemma scan_digits_closes (s : string) :
  (fst (scan_digits s) = Decimal.Nil /\ snd (scan_digits s) = s)
  \/ (fst (scan_digits s) <> Decimal.Nil /\ closes (snd (scan_digits s)) s).
Proof.
  induction s as [|c s IH]; cbn [scan_digits]; [now left|].
  destruct (digit_of c) as [D|] eqn:Ed; [|now left].
  destruct (scan_digits s) as [d r]. cbn [fst snd] in *. right.
  split; [now apply (digit_of_not_Nil c)|].
  destruct IH as [[_ ->]|[_ H]].
  - apply closes_here. now apply (closer_digit c D).
  - now apply closes_cons.
Qed.

Lemma scan_nat_closes (s : string) (n : N) (r : string) :
  scan_nat s = Ok (n, r) -> closes r s.
Proof.
  unfold scan_nat. destruct (after "0" s) as [r0|] eqn:E.
  - intros [= _ <-]. now apply (closes_after "0").
  - destruct (scan_digits_closes s) as [[Hd _]|[Hd Hc]];
      destruct (scan_digits s) as [d r']; cbn [fst snd] in *.
    + subst d. discriminate.
    + destruct d; try congruence; now intros [= _ <-].
Qed.

Lemma scan_frac_closes (s r : string) : scan_frac s = Some r -> closes r s.
Proof.
  unfold scan_frac. destruct (after "." s) as [t|] eqn:E; [|discriminate].
  apply after_eq in E. subst s.
  destruct (scan_digits_closes t) as [[Hd _]|[Hd Hc]];
    destruct (scan_digits t) as [d r']; cbn [fst snd] in *.
  - subst d. discriminate.
  - destruct d; try congruence; intros [= <-]; now apply closes_cons.
Qed.

Lemma scan_exp_closes (s r : string) : scan_exp s = Some r -> closes r s.
Proof.
  unfold scan_exp. destruct s as [|c t]; [discriminate|].
  destruct ((c =? "e") || (c =? "E"))%char; [|discriminate].
  set (t1 := match after "+" t with
             | Some u => u
             | None => match after "-" t with Some u => u | None => t end
             end).
  assert (Ht : forall r, closes r t1 -> closes r t).
  { intros r0 H. unfold t1 in H. destruct (after "+" t) as [u|] eqn:E1.
    - apply after_eq in E1. subst t. now apply closes_cons.
    - destruct (after "-" t) as [u|] eqn:E2; [|exact H].
      apply after_eq in E2. subst t. now apply closes_cons. }
  destruct (scan_digits_closes t1) as [[Hd _]|[Hd Hc]];
    destruct (scan_digits t1) as [d r']; cbn [fst snd] in *.
  - subst d. discriminate.
  - destruct d; try congruence; intros [= <-]; apply closes_cons; now apply Ht.
Qed.

Lemma strip_prefix_eq (lit s r : string) :
  strip_prefix lit s = Some r -> s = lit ++ r.
Proof.
  revert s. induction lit as [|a lit IH]; intros s; cbn [strip_prefix].
  - now intros [= <-].
  - destruct s as [|b s]; [discriminate|].
    destruct (Ascii.eqb_spec a b) as [->|]; [|discriminate].
    intros Hs. cbn. now rewrite (IH s Hs).
Qed.

Lemma closes_literal (pre : string) (c : ascii) (s r : string) :
  closer c = true -> strip_prefix (pre ++ String c "") s = Some r ->
  closes r s.
Proof.
  intros Hc E. apply strip_prefix_eq in E. subst s.
  exists pre, c. split; [|exact Hc]. now rewrite append_assoc.
Qed.

Lemma expect_closes (pre : string) (c : ascii) (v v' : pyval) (s r : string) :
  closer c = true -> expect (pre ++ String c "") v s = Ok (v', r) ->
  closes r s.
Proof.
  intros Hc. unfold expect.
  destruct (strip_prefix _ s) as [r'|] eqn:E; [|discriminate].
  intros [= _ <-]. now apply (closes_literal pre c).
Qed.

Lemma scan_constant_closes (s : string) (v : pyval) (r : string) :
  scan_constant s = Ok (v, r) -> closes r s.
Proof.
  unfold scan_constant.
  destruct (strip_prefix "NaN" s) as [r1|] eqn:E1.
  { intros [= _ <-]. now apply (closes_literal "Na" "N"). }
  destruct (strip_prefix "Infinity" s) as [r2|] eqn:E2.
  { intros [= _ <-]. now apply (closes_literal "Infinit" "y"). }
  destruct (strip_prefix "-Infinity" s) as [r3|] eqn:E3; [|discriminate].
  intros [= _ <-]. now apply (closes_literal "-Infinit" "y").
Qed.

Lemma scan_number_closes (s : string) (v : pyval) (r : string) :
  scan_number s = Ok (v, r) -> closes r s.
Proof.
  unfold scan_number.
  set (s1 := match after "-" s with Some t => t | None => s end).
  assert (H1 : forall r, closes r s1 -> closes r s).
  { intros r0 H. unfold s1 in H. destruct (after "-" s) as [t|] eqn:E; [|exact H].
    apply after_eq in E. subst s. now apply closes_cons. }
  destruct (scan_nat s1) as [[n r0]|x] eqn:En; [|apply scan_constant_closes].
  apply scan_nat_closes in En. cbv zeta.
  set (r1 := match scan_frac r0 with Some r' => r' | None => r0 end).
  set (r2 := match scan_exp r1 with Some r' => r' | None => r1 end).
  assert (Hr1 : closes r1 s1).
  { unfold r1. destruct (scan_frac r0) as [r'|] eqn:E; [|exact En].
    apply scan_frac_closes in E. destruct En as (pre & c & -> & _).
    apply closes_app. now apply closes_cons. }
  assert (Hr2 : closes r2 s1).
  { unfold r2. destruct (scan_exp r1) as [r'|] eqn:E; [|exact Hr1].
    apply scan_exp_closes in E. destruct Hr1 as (pre & c & -> & _).
    apply closes_app. now apply closes_cons. }
  destruct (String.length r2 <? String.length r0)%nat;
    intros [= _ <-]; now apply H1.
Qed.

Lemma closes_trans_ws (r r1 s : string) :
  closes r (skip_ws r1) -> closes r1 s -> closes r s.
Proof.
  intros H (pre & c & -> & _). apply closes_app, closes_cons.
  now apply closes_skip_ws.
Qed.

Lemma scan_closes (n : nat) :
  (forall s v r, scan_value n s = Ok (v, r) -> closes r s)
  /\ (forall s vs r, scan_elems n s = Ok (vs, r) -> closes r s)
  /\ (forall s ps r, scan_members n s = Ok (ps, r) -> closes r s).
Proof.
  induction n as [|n (IHv & IHl & IHd)].
  { repeat split; intros; discriminate. }
  split; [|split]; intros s.
  - intros v r. destruct s as [|c s']; [discriminate|]. rewrite scan_value_S.
    destruct (c =? dquote)%char.
    { destruct (scan_string s') as [[u r']|x] eqn:E; [|discriminate].
      intros [= _ <-]. apply closes_cons. now apply (scan_string_closes s' u). }
    destruct (c =? "{")%char.
    { destruct (after "}" (skip_ws s')) as [r'|] eqn:E.
      - intros [= _ <-]. apply closes_cons, closes_skip_ws.
        now apply (closes_after "}").
      - destruct (scan_members n (skip_ws s')) as [[ps r']|x] eqn:Em;
          [|discriminate].
        intros [= _ <-]. apply closes_cons, closes_skip_ws.
        now apply (IHd _ ps). }
    destruct (c =? "[")%char.
    { destruct (after "]" (skip_ws s')) as [r'|] eqn:E.
      - intros [= _ <-]. apply closes_cons, closes_skip_ws.
        now apply (closes_after "]").
      - destruct (scan_elems n (skip_ws s')) as [[ps r']|x] eqn:Em;
          [|discriminate].
        intros [= _ <-]. apply closes_cons, closes_skip_ws.
        now apply (IHl _ ps). }
    destruct (c =? "n")%char.
    { now apply (expect_closes "nul" "l"). }
    destruct (c =? "t")%char.
    { now apply (expect_closes "tru" "e"). }
    destruct (c =? "f")%char.
    { now apply (expect_closes "fals" "e"). }
    apply scan_number_closes.
  - intros vs r. rewrite scan_elems_S.
    destruct (scan_value n s) as [[v r0]|x] eqn:Ev; [|discriminate].
    apply IHv in Ev.
    destruct (after "," (skip_ws r0)) as [r1|] eqn:E1.
    + destruct (scan_elems n (skip_ws r1)) as [[vs' r2]|x] eqn:El;
        [|discriminate].
      intros [= _ <-]. apply IHl in El.
      apply after_eq in E1.
      apply (closes_trans_ws r2 r0 s); [|exact Ev].
      rewrite E1. apply closes_cons. now apply closes_skip_ws.
    + destruct (after "]" (skip_ws r0)) as [r1|] eqn:E2; [|discriminate].
      intros [= _ <-]. apply (closes_trans_ws r1 r0 s); [|exact Ev].
      now apply (closes_after "]").
  - intros ps r. rewrite scan_members_S.
    destruct (after dquote s) as [s'|] eqn:E0; [|discriminate].
    apply after_eq in E0. subst s.
    destruct (scan_string s') as [[k r0]|x] eqn:Es; [|discriminate].
    apply scan_string_closes in Es.
    destruct (after ":" (skip_ws r0)) as [r1|] eqn:E1; [|discriminate].
    apply after_eq in E1.
    destruct (scan_value n (skip_ws r1)) as [[v r2]|x] eqn:Ev; [|discriminate].
    apply IHv in Ev.
    assert (H2 : closes r2 (String dquote s')).
    { apply closes_cons. apply (closes_trans_ws r2 r0 s'); [|exact Es].
      rewrite E1. now apply closes_cons, closes_skip_ws. }
    destruct (after "," (skip_ws r2)) as [r3|] eqn:E3.
    + destruct (scan_members n (skip_ws r3)) as [[ps' r4]|x] eqn:Em;
        [|discriminate].
      intros [= _ <-]. apply IHd in Em. apply after_eq in E3.
      apply (closes_trans_ws r4 r2 _); [|exact H2].
      rewrite E3. apply closes_cons. now apply closes_skip_ws.
    + destruct (after "}" (skip_ws r2)) as [r3|] eqn:E4; [|discriminate].
      intros [= _ <-]. apply (closes_trans_ws r3 r2 _); [|exact H2].
      now apply (closes_after "}").
Qed.

Lemma last_char_app (a b : string) (x : ascii) :
  last_char b = Some x -> last_char (a ++ b) = Some x.
Proof.
  intros Hb. induction a as [|c a IH]; [exact Hb|]. cbn. now rewrite IH.
Qed.

Lemma skip_ws_last (r : string) (x : ascii) :
  skip_ws r = "" -> last_char r = Some x -> is_ws x = true.
Proof.
  induction r as [|a r IH]; [discriminate|]. cbn [skip_ws last_char].
  destruct (is_ws a) eqn:Ea; [|discriminate]. intros Hr.
  destruct (last_char r) as [y|]; intros [= <-]; [now apply IH | exact Ea].
Qed.

(** A text that [json.loads] accepts ends, white space apart, with the
    last character of a value. *)
Lemma json_loads_last (s : string) (v : pyval) :
  json_loads s = Ok v ->
  exists c, last_char s = Some c /\ (closer c = true \/ is_ws c = true).
Proof.
  unfold json_loads. destruct (scan_closes (fuel_for s)) as [Hv _].
  destruct (scan_value _ _) as [[v' r]|x] eqn:E; [|discriminate].
  apply Hv, closes_skip_ws in E. destruct E as (pre & c & -> & Hc).
  destruct (skip_ws r) eqn:Er; [|discriminate]. intros _.
  destruct (last_char r) as [x|] eqn:El.
  - exists x. split; [|right; now apply (skip_ws_last r)].
    apply last_char_app. cbn. now rewrite El.
  - exists c. split; [|now left]. apply last_char_app. cbn. now rewrite El.
Qed.

Lemma not_json (s : string) (c : ascii) :
  last_char s = Some c -> closer c = false -> is_ws c = false ->
  exists e, json_loads s = Raise e /\ decode_error e.
Proof.
  intros Hl Hc Hw. destruct (json_loads s) as [v|e] eqn:E.
  - apply json_loads_last in E. destruct E as (c' & Hl' & H).
    rewrite Hl in Hl'. injection Hl' as <-.
    destruct H; congruence.
  - exists e. split; [reflexivity|]. now apply (json_loads_raises s).
Qed.

(** ** What a printed value is made of *)

Lemma printable_app (a b : string) :
  printable_ascii (a ++ b) = printable_ascii a && printable_ascii b.
Proof.
  induction a as [|c a IH]; [reflexivity|]. cbn [append printable_ascii].
  rewrite IH. now rewrite andb_assoc.
Qed.

Lemma escape_char_printable (c : ascii) :
  printable_ascii (escape_char c) = true.
Proof. each_char c; reflexivity. Qed.

Lemma escape_printable (s : string) : printable_ascii (escape s) = true.
Proof.
  induction s as [|c s IH]; [reflexivity|]. cbn [escape].
  now rewrite printable_app, escape_char_printable, IH.
Qed.

Lemma dumps_str_printable (s : string) :
  printable_ascii (dumps_str s) = true.
Proof.
  unfold dumps_str. cbn [printable_ascii].
  rewrite printable_app, escape_printable. reflexivity.
Qed.

Lemma string_of_uint_printable (d : Decimal.uint) :
  printable_ascii (NilEmpty.string_of_uint d) = true.
Proof. induction d; cbn; auto. Qed.

Lemma dumps_int_printable (z : Z) : printable_ascii (dumps_int z) = true.
Proof.
  destruct z; cbn [dumps_int printable_ascii];
    rewrite ?string_of_uint_printable; reflexivity.
Qed.

Lemma dumps_printable (v : pyval) :
  wf v = true -> printable_ascii (dumps v) = true.
Proof.
  induction v as [| b | z | t | s | l IH | d IH] using pyval_induction.
  - reflexivity.
  - now destruct b.
  - intros _. apply dumps_int_printable.
  - discriminate.
  - intros _. apply dumps_str_printable.
  - rewrite wf_PyList, dumps_PyList. intros Hw.
    cbn [printable_ascii]. rewrite printable_app.
    assert (H : printable_ascii (dumps_elems l) = true); [|now rewrite H].
    induction IH as [|x l Hx Hl IHl]; [reflexivity|].
    cbn [wf_elems] in Hw. apply andb_true_iff in Hw as [Hwx Hwl].
    cbn [dumps_elems]. rewrite printable_app, Hx by assumption.
    destruct l; [reflexivity|]. rewrite printable_app, IHl by assumption.
    reflexivity.
  - rewrite wf_PyDict, dumps_PyDict. intros Hw.
    cbn [printable_ascii]. rewrite printable_app.
    assert (H : printable_ascii (dumps_members d) = true); [|now rewrite H].
    induction IH as [|[k x] d Hx Hd IHd]; [reflexivity|].
    cbn [wf_members] in Hw. apply andb_true_iff in Hw as [Hwx Hwd].
    apply andb_true_iff in Hwx as [_ Hwx]. cbn [snd] in Hx.
    cbn [dumps_members].
    rewrite !printable_app, dumps_str_printable, Hx by assumption.
    destruct d; [reflexivity|]. rewrite printable_app, IHd by assumption.
    reflexivity.
Qed.

(* ================================================================== *)
(** * Further facts about [nodes.py] *)
(* ================================================================== *)

(** X1: a message whose payload is a well-formed value, sent through
    [PythonToJson] and then [JsonToPython], comes back with the payload it
    had, the content type [application/python] and its other fields as
    they were. *)
Theorem encode_then_decode_roundtrip (msg : Message) :
  wf (payload msg) = true ->
  encode_then_decode msg =
  Ok {| payload := payload msg;
        content_type := "application/python";
        meta := meta msg |}.
Proof.
  intros Hw. unfold encode_then_decode. rewrite !BaseNode_handle_process.
  unfold PythonToJson_process, JsonToPython_process.
  cbn [obind payload set_payload set_content_type py_json_loads
       content_type meta].
  rewrite BaseNode_handle_process.
  cbn [obind payload set_payload set_content_type py_json_loads
       content_type meta].
  now rewrite loads_dumps.
Qed.

Lemma encode_then_decode_roundtrip_witness :
  encode_then_decode
    {| payload := PyDict [("a", PyInt 1); ("b", PyList [PyStr "x"; PyNone])];
       content_type := "text/plain"; meta := [] |}
  = Ok {| payload := PyDict [("a", PyInt 1); ("b", PyList [PyStr "x"; PyNone])];
          content_type := "application/python"; meta := [] |}.
Proof.
  apply (encode_then_decode_roundtrip
    {| payload := PyDict [("a", PyInt 1); ("b", PyList [PyStr "x"; PyNone])];
       content_type := "text/plain"; meta := [] |}).
  reflexivity.
Defined.

(** X2: [PythonToJson] gives two messages with different well-formed
    payloads different texts: the encoding loses nothing. *)
Theorem PythonToJson_keeps_payloads_apart (m1 m2 out1 out2 : Message) :
  wf (payload m1) = true -> wf (payload m2) = true ->
  payload m1 <> payload m2 ->
  BaseNode_handle PythonToJson_process m1 = Ok out1 ->
  BaseNode_handle PythonToJson_process m2 = Ok out2 ->
  payload out1 <> payload out2.
Proof.
  intros H1 H2 Hne. rewrite !BaseNode_handle_process.
  unfold PythonToJson_process. cbn. intros [= <-] [= <-]. cbn.
  intros [= E]. apply Hne.
  pose proof (loads_dumps _ H1) as L1. pose proof (loads_dumps _ H2) as L2.
  rewrite E in L1. congruence.
Qed.

Lemma PythonToJson_keeps_payloads_apart_witness :
  payload {| payload := PyStr (q "'1'"); content_type := "application/json";
             meta := [] |}
  <> payload {| payload := PyStr "1"; content_type := "application/json";
                meta := [] |}.
Proof.
  apply (PythonToJson_keeps_payloads_apart
           {| payload := PyStr "1"; content_type := ""; meta := [] |}
           {| payload := PyInt 1; content_type := ""; meta := [] |}).
  - reflexivity.
  - reflexivity.
  - discriminate.
  - reflexivity.
  - reflexivity.
Defined.


(** X4: a payload text whose last character is neither white space nor a
    character a JSON value can end with (a text cut short after a comma,
    a colon or an opening bracket, say) makes [JsonToPython] raise a
    [JSONDecodeError]. *)
Theorem JsonToPython_rejects_open_text (msg : Message) (s : string)
        (c : ascii) :
  payload msg = PyStr s ->
  last_char s = Some c -> closer c = false -> is_ws c = false ->
  exists exc,
    BaseNode_handle JsonToPython_process msg = Raise exc /\ decode_error exc.
Proof.
  intros Hp Hl Hc Hw. destruct (not_json s c Hl Hc Hw) as (exc & He & Hd).
  exists exc. split; [|exact Hd].
  rewrite BaseNode_handle_process. unfold JsonToPython_process.
  rewrite Hp. cbn [py_json_loads]. now rewrite He.
Qed.

Lemma JsonToPython_rejects_open_text_witness :
  exists exc,
    BaseNode_handle JsonToPython_process
      {| payload := PyStr (q "{'a': 1,"); content_type := "application/json";
         meta := [] |} = Raise exc
    /\ decode_error exc.
Proof.
  apply (JsonToPython_rejects_open_text
           {| payload := PyStr (q "{'a': 1,");
              content_type := "application/json"; meta := [] |}
           (q "{'a': 1,") ","%char); reflexivity.
Defined.

(** X5: the text [PythonToJson] makes of a well-formed payload holds
    printable ASCII characters only, every other character of a string
    being escaped. *)
Theorem PythonToJson_output_is_ascii (msg out : Message) :
  wf (payload msg) = true ->
  BaseNode_handle PythonToJson_process msg = Ok out ->
  exists s, payload out = PyStr s /\ printable_ascii s = true.
Proof.
  intros Hw. rewrite BaseNode_handle_process. unfold PythonToJson_process.
  intros [= <-]. eexists. split; [reflexivity|].
  now apply dumps_printable.
Qed.

Lemma PythonToJson_output_is_ascii_witness :
  exists s,
    PyStr (json_dumps (PyStr (String "233"%char "t"))) = PyStr s
    /\ printable_ascii s = true.
Proof.
  apply (PythonToJson_output_is_ascii
           {| payload := PyStr (String "233"%char "t");
              content_type := "text/plain"; meta := [] |}
           {| payload := PyStr (json_dumps (PyStr (String "233"%char "t")));
              content_type := "application/json"; meta := [] |}).
  - reflexivity.
  - reflexivity.
Defined.

Lemma at_index_last (f : Invocation -> option Invocation)
      (st : list Invocation) (x x' : Invocation) :
  f x = Some x' ->
  at_index f (List.length st) (st ++ [x])%list = Some (st ++ [x'])%list.
Proof.
  intros Hf. induction st as [|y st IH]; cbn [List.length List.app at_index].
  - now rewrite Hf.
  - now rewrite IH.
Qed.

Lemma counter_app (st st' : list Invocation) :
  counter (st ++ st')%list = counter st + counter st'.
Proof.
  unfold counter, list_sum. induction st as [|x st IH]; [reflexivity|].
  cbn [List.app map fold_right]. rewrite IH. lia.
Qed.

Lemma one_more_inside (process : process_fn) (msg : Message)
      (st : list Invocation) :
  run process [Call msg; Enter (List.length st); Take (List.length st)] st
  = Some (st ++ [inside_process msg])%list.
Proof.
  cbn [run fire].
  rewrite (at_index_last enter st (Called msg)
             (Awaiting msg (submit (ThreadPoolExecutor 1) msg) None) eq_refl).
  now rewrite (at_index_last take st
             (Awaiting msg (submit (ThreadPoolExecutor 1) msg) None)
             (inside_process msg) eq_refl).
Qed.

(** X6: for every [n], [n] calls of [ThreadNode.handle] on one node can
    all be inside [process] at once: each call brings a worker of its
    own, and the counter of workers inside [process] reaches [n]. *)
Theorem overlapping_calls_all_inside (process : process_fn) (n : nat)
        (msg : Message) :
  run process (overlapping_calls n msg) [] = Some (repeat (inside_process msg) n)
  /\ counter (repeat (inside_process msg) n) = n.
Proof.
  induction n as [|n [IHr IHc]]; [split; reflexivity|].
  assert (Hs : repeat (inside_process msg) (S n) =
               (repeat (inside_process msg) n ++ [inside_process msg])%list).
  { now rewrite <- repeat_cons. }
  split.
  - cbn [overlapping_calls]. rewrite run_app, IHr, Hs.
    rewrite <- (one_more_inside process msg (repeat (inside_process msg) n)).
    now rewrite repeat_length.
  - rewrite Hs, counter_app, IHc. cbn. lia.
Qed.

(* ================================================================== *)
(** * Further facts about [views.py] *)
(* ================================================================== *)

(** ** The handlers called directly *)

Section MoreHandlerFacts.
Context {env : Collaborators}.

(** X7: [get_channel] returns the first channel of [all_channels] whose
    name is the name asked for, and [None] exactly when no channel has
    that name; a name that is no string finds no channel. *)
Theorem get_channel_first_of_name (channelname : pyval)
        (chans : list Channel) :
  match get_channel channelname chans with
  | Some chan =>
      exists before rest,
        chans = (before ++ chan :: rest)%list
        /\ channelname = PyStr (name chan)
        /\ Forall (fun c => channelname <> PyStr (name c)) before
  | None => Forall (fun c => channelname <> PyStr (name c)) chans
  end.
Proof.
  induction chans as [|c chans IH]; cbn [get_channel]; [constructor|].
  destruct (py_eq_str channelname (name c)) eqn:E.
  - exists [], chans. split; [reflexivity|]. split; [|constructor].
    destruct channelname; try discriminate. cbn in E.
    apply String.eqb_eq in E. now subst.
  - assert (Hc : channelname <> PyStr (name c)).
    { intros ->. cbn in E. now rewrite String.eqb_refl in E. }
    destruct (get_channel channelname chans) as [chan|].
    + destruct IH as (before & rest & -> & Hn & Hb).
      exists (c :: before), rest. split; [reflexivity|]. split; [exact Hn|].
      now constructor.
    + now constructor.
Qed.

(** X8: [list_channels] called with no socket sends one frame on a socket
    of its own: the list, in the order of [all_channels], of the channels
    that have no parent; each entry is the [to_dict()] of the channel with
    the key [subchannels] set to its [subchannels()], the other keys as
    [to_dict()] gave them. *)
Theorem list_channels_lists_top_level (st : State) :
  let listed (chan : Channel) :=
    PyDict (dict_set "subchannels" (subchannels chan) (to_dict chan)) in
  let top (chan : Channel) :=
    match parent chan with None => true | Some _ => false end in
  list_channels None st =
  (Ok tt,
   with_ws (plain [json_dumps
     (PyList (map listed (filter top (all_channels st))))]) st)
  /\ (forall chan,
        dict_get "subchannels"
          (dict_set "subchannels" (subchannels chan) (to_dict chan))
        = Some (subchannels chan))
  /\ (forall chan k, k <> "subchannels" ->
        dict_get k (dict_set "subchannels" (subchannels chan) (to_dict chan))
        = dict_get k (to_dict chan)).
Proof.
  cbn zeta. split; [|split].
  - assert (H : forall chans,
      top_level chans =
      map (fun chan =>
             PyDict (dict_set "subchannels" (subchannels chan) (to_dict chan)))
          (filter (fun chan => match parent chan with
                               | None => true | Some _ => false end) chans)).
    { induction chans as [|c chans IH]; [reflexivity|].
      cbn [top_level filter]. destruct (parent c); [exact IH|].
      cbn [map]. now rewrite IH. }
    rewrite <- H. reflexivity.
  - intros chan. apply dict_get_set_same.
  - intros chan k Hk. now apply dict_get_set_other.
Qed.

(** X9: for a channel that [get_channel] finds, [start_channel] and
    [stop_channel] call the method of the channel and then send one
    frame, the name of the channel and its status as it is after the
    call; an exception of [start()] or [stop()] leaves the handler with
    nothing sent. *)
Theorem start_stop_outcome (channelname : pyval) (chan : Channel)
        (st : State) :
  get_channel channelname (all_channels st) = Some chan ->
  let started chan' :=
    with_channels (put_channel channelname chan' (all_channels st)) st in
  let reply chan' :=
    json_dumps (PyDict [("name", PyStr (name chan'));
                        ("status", PyStr (status_id_to_str (status chan')))]) in
  (forall chan',
     chan_start chan = (Ok tt, chan') ->
     start_channel channelname None st =
     (Ok tt, with_ws (plain [reply chan']) (started chan')))
  /\ (forall exc chan',
        chan_start chan = (Raise exc, chan') ->
        start_channel channelname None st =
        (Raise exc, with_ws (plain []) (started chan')))
  /\ (forall chan',
        chan_stop chan = (Ok tt, chan') ->
        stop_channel channelname None st =
        (Ok tt, with_ws (plain [reply chan']) (started chan')))
  /\ (forall exc chan',
        chan_stop chan = (Raise exc, chan') ->
        stop_channel channelname None st =
        (Raise exc, with_ws (plain []) (started chan'))).
Proof.
  intros Hc. cbn zeta.
  repeat split; intros;
    unfold start_channel, stop_channel, bind, open_ws, modify, gets;
    cbn [all_channels with_ws]; rewrite Hc; unfold await_method;
    match goal with Hm : _ = (_, _) |- _ => rewrite Hm end; reflexivity.
Qed.

(** X10: [list_msgs] converts [start] and [count] before it touches the
    channel: a value [int] refuses raises the exception of [int], and
    with both converted a channel name that [get_channel] does not find
    raises the [AttributeError] of [None.message_store]; in all three
    cases nothing is sent. *)
Theorem list_msgs_failures_escape (channelname : pyval)
        (ws_arg : option WebSocket) (st : State) :
  let args := query (request st) in
  let raises exc :=
    list_msgs channelname ws_arg st = (Raise exc, with_ws (opened ws_arg) st) in
  (forall exc, int_arg "start" 0 args = Raise exc -> raises exc)
  /\ (forall first exc,
        int_arg "start" 0 args = Ok first ->
        int_arg "count" 10 args = Raise exc -> raises exc)
  /\ (forall first limit,
        int_arg "start" 0 args = Ok first ->
        int_arg "count" 10 args = Ok limit ->
        get_channel channelname (all_channels st) = None ->
        raises (AttributeError
                  "'NoneType' object has no attribute 'message_store'")).
Proof.
  cbn zeta. repeat split; intros;
    unfold list_msgs, bind, open_ws, modify, gets, lift;
    destruct ws_arg as [w|]; cbn [all_channels with_ws request opened];
    repeat match goal with H : _ = _ |- _ => rewrite H end; reflexivity.
Qed.
End MoreHandlerFacts.

(** ** What a command of a legacy session sends *)

Section ReplyFacts.
Context {env : Collaborators}.



















End ReplyFacts.

(** ** The first frame of a legacy session *)

Section SessionFacts.
Context {env : Collaborators}.


(** The first frame of a session, up to the [if]/[elif] chain. *)
Lemma first_frame (data : string) (d : pydict)
      (cmd_method params channelname : pyval)
      (rest : list string) (st : State) :
  json_loads data = Ok (PyDict d) ->
  dict_get "method" d = Some cmd_method ->
  py_get (PyDict (dict_remove "method" d)) "params" (PyList [PyNone])
    = Ok params ->
  py_index params 0 = Ok channelname ->
  backport_old_client (data :: rest) st =
  (dispatch cmd_method params channelname ;; session_loop rest)
    (with_ws (rpc (Some (PyDict (dict_remove "method" d))) []) st).
Proof.
  intros Hd Hm Hp Hc. unfold backport_old_client, bind at 1, modify.
  cbn [session_loop]. unfold bind at 1. unfold loop_body. rewrite Hd.
  unfold bind at 1. unfold set_rpc_attrs at 1, modify.
  unfold bind at 1. unfold lift at 1. cbn [py_pop]. rewrite Hm.
  unfold bind at 1. unfold set_rpc_attrs, modify.
  unfold bind at 1. unfold lift at 1. rewrite Hp.
  unfold bind at 1. unfold lift at 1. rewrite Hc.
  change (with_ws _ (with_ws _ (with_ws RPCWebSocketResponse st)))
    with (with_ws (rpc (Some (PyDict (dict_remove "method" d))) []) st).
  unfold bind.
  destruct (dispatch _ _ _ _) as [[[]|exc] st1]; reflexivity.
Qed.

Lemma dispatch_unknown (cmd_method params channelname : pyval) :
  (forall m, In m known_methods -> py_eq_str cmd_method m = false) ->
  dispatch cmd_method params channelname =
  send_str (py_str cmd_method ++ " is not a valid method").
Proof.
  intros H. unfold dispatch.
  rewrite !H by (cbn; tauto). reflexivity.
Qed.

(** X12: a frame whose [method] is none of the seven names of the
    [if]/[elif] chain makes the session raise: the text
    [<method> is not a valid method] goes through
    [RPCWebSocketResponse.send_str], which parses it as JSON, and no text
    that ends with the letter [d] is JSON; nothing is sent. *)
Theorem unknown_method_raises (data : string) (d : pydict)
        (cmd_method params channelname : pyval)
        (rest : list string) (st : State) :
  json_loads data = Ok (PyDict d) ->
  dict_get "method" d = Some cmd_method ->
  py_get (PyDict (dict_remove "method" d)) "params" (PyList [PyNone])
    = Ok params ->
  py_index params 0 = Ok channelname ->
  (forall m, In m known_methods -> py_eq_str cmd_method m = false) ->
  exists exc,
    backport_old_client (data :: rest) st =
    (Raise exc, with_ws (rpc (Some (PyDict (dict_remove "method" d))) []) st)
    /\ decode_error exc.
Proof.
  intros Hd Hm Hp Hc Hu.
  rewrite (first_frame data d cmd_method params channelname rest st Hd Hm Hp Hc).
  rewrite dispatch_unknown by exact Hu.
  destruct (not_json (py_str cmd_method ++ " is not a valid method") "d")
    as (exc & He & Hdec); [now apply last_char_app | reflexivity | reflexivity|].
  exists exc. split; [|exact Hdec]. unfold bind.
  now rewrite (send_str_rpc_bad _ exc).
Qed.

Lemma short_query_params (ps : list pyval) :
  List.length ps < 8 ->
  list_msgs_query_params (PyList ps)
  = Raise (IndexError "list index out of range").
Proof.
  intros Hl.
  do 8 (destruct ps as [|? ps]; [reflexivity|]). cbn in Hl. lia.
Qed.

(** X13: the legacy commands read their arguments by position without
    looking at the length of [params]: [preview_msg], [view_msg] and
    [replay_msg] with fewer than two positions, and [list_msgs] with
    fewer than eight, raise [IndexError] with nothing sent; a frame
    with no [params], which stands for [[None]], is such a frame. *)
Theorem short_params_raise (data : string) (d : pydict) (m : string)
        (ps : list pyval) (rest : list string) (st : State) :
  json_loads data = Ok (PyDict d) ->
  dict_get "method" d = Some (PyStr m) ->
  py_get (PyDict (dict_remove "method" d)) "params" (PyList [PyNone])
    = Ok (PyList ps) ->
  (In m ["preview_msg"; "view_msg"; "replay_msg"] /\ List.length ps < 2)
  \/ (m = "list_msgs" /\ List.length ps < 8) ->
  backport_old_client (data :: rest) st =
  (Raise (IndexError "list index out of range"),
   with_ws (rpc (Some (PyDict (dict_remove "method" d))) []) st).
Proof.
  intros Hd Hm Hp Hs. destruct ps as [|channelname ps].
  { unfold backport_old_client, bind at 1, modify.
    cbn [session_loop]. unfold bind at 1. unfold loop_body. rewrite Hd.
    unfold bind at 1. unfold set_rpc_attrs at 1, modify.
    unfold bind at 1. unfold lift at 1. cbn [py_pop]. rewrite Hm.
    unfold bind at 1. unfold set_rpc_attrs, modify.
    unfold bind at 1. unfold lift at 1. rewrite Hp.
    unfold bind at 1. unfold lift at 1. reflexivity. }
  rewrite (first_frame data d (PyStr m) (PyList (channelname :: ps))
             channelname rest st Hd Hm Hp eq_refl).
  unfold bind at 1.
  destruct Hs as [[Hin Hl]|[-> Hl]].
  - destruct ps as [|? ps]; [|cbn in Hl; lia].
    cbn in Hin. destruct Hin as [<-|[<-|[<-|[]]]]; reflexivity.
  - unfold dispatch. cbn [py_eq_str String.eqb Ascii.eqb Bool.eqb].
    unfold bind at 1. unfold lift at 1.
    now rewrite short_query_params.
Qed.




End SessionFacts.

Section MoreSessionFacts.
Context {env : Collaborators}.


(** X17: the channel name of a legacy command is [params[0]], whatever
    the method: a list gives its first element, a string its first
    character; an empty list or string raises [IndexError], an object
    [KeyError(0)], and [null], a number or a boolean the [TypeError] of
    a value that cannot be indexed, all with nothing sent. *)
Theorem params_must_be_indexable (data : string) (d : pydict)
        (cmd_method params : pyval) (rest : list string) (st : State) :
  json_loads data = Ok (PyDict d) ->
  dict_get "method" d = Some cmd_method ->
  dict_get "params" d = Some params ->
  let st' := with_ws (rpc (Some (PyDict (dict_remove "method" d))) []) st in
  let raises exc := backport_old_client (data :: rest) st = (Raise exc, st') in
  let dispatches channelname :=
    backport_old_client (data :: rest) st =
    (dispatch cmd_method params channelname ;; session_loop rest) st' in
  match params with
  | PyList (channelname :: _) => dispatches channelname
  | PyList [] => raises (IndexError "list index out of range")
  | PyStr (String c _) => dispatches (PyStr (String c ""))
  | PyStr EmptyString => raises (IndexError "string index out of range")
  | PyDict _ => raises (KeyError (PyInt 0))
  | _ => raises (TypeError
                   ("'" ++ type_name params ++ "' object is not subscriptable"))
  end.
Proof.
  intros Hd Hm Hp. cbn zeta.
  assert (Hp' : py_get (PyDict (dict_remove "method" d)) "params"
                  (PyList [PyNone]) = Ok params).
  { cbn [py_get]. rewrite dict_get_remove by discriminate. now rewrite Hp. }
  assert (H : forall exc, py_index params 0 = Raise exc ->
    backport_old_client (data :: rest) st =
    (Raise exc, with_ws (rpc (Some (PyDict (dict_remove "method" d))) []) st)).
  { intros exc He. unfold backport_old_client, bind at 1, modify.
    cbn [session_loop]. unfold bind at 1. unfold loop_body. rewrite Hd.
    unfold bind at 1. unfold set_rpc_attrs at 1, modify.
    unfold bind at 1. unfold lift at 1. cbn [py_pop]. rewrite Hm.
    unfold bind at 1. unfold set_rpc_attrs, modify.
    unfold bind at 1. unfold lift at 1. rewrite Hp'.
    unfold bind at 1. unfold lift at 1. rewrite He. reflexivity. }
  destruct params as [| b | z | t | s | l | d']; try (apply H; reflexivity).
  - destruct s as [|c s]; [apply H; reflexivity|].
    now apply first_frame.
  - destruct l as [|channelname l]; [apply H; reflexivity|].
    now apply first_frame.
Qed.
End MoreSessionFacts.

(** ** The same on the sample environment *)

Lemma start_stop_outcome_witness :
  start_channel (env := sample) (PyStr "chan") None sample_state =
  (Ok tt, with_ws (plain [q "{'name': 'chan', 'status': '0'}"]) sample_state).
Proof.
  destruct (start_stop_outcome (env := sample) (PyStr "chan") sample_channel
              sample_state eq_refl) as (Hstart & _).
  exact (Hstart sample_channel eq_refl).
Defined.

Lemma unknown_method_raises_witness :
  exists exc,
    backport_old_client (env := sample)
      [q "{'method': 'restart', 'params': ['chan'], 'id': 1}"] sample_state =
    (Raise exc,
     with_ws (rpc (Some (PyDict [("params", PyList [PyStr "chan"]);
                                 ("id", PyInt 1)])) []) sample_state)
    /\ decode_error exc.
Proof.
  apply (unknown_method_raises (env := sample)
           (q "{'method': 'restart', 'params': ['chan'], 'id': 1}")
           [("method", PyStr "restart"); ("params", PyList [PyStr "chan"]);
            ("id", PyInt 1)]
           (PyStr "restart") (PyList [PyStr "chan"]) (PyStr "chan")
           [] sample_state).
  - reflexivity.
  - reflexivity.
  - reflexivity.
  - reflexivity.
  - intros m Hin. cbn in Hin.
    repeat (destruct Hin as [<-|Hin]; [reflexivity|]). contradiction.
Defined.

Lemma short_params_raise_witness :
  backport_old_client (env := sample)
    [q "{'method': 'list_msgs', 'params': ['chan', 0, 10], 'id': 1}"]
    sample_state =
  (Raise (IndexError "list index out of range"),
   with_ws (rpc (Some (PyDict [("params",
                                PyList [PyStr "chan"; PyInt 0; PyInt 10]);
                               ("id", PyInt 1)])) []) sample_state).
Proof.
  apply (short_params_raise (env := sample)
           (q "{'method': 'list_msgs', 'params': ['chan', 0, 10], 'id': 1}")
           [("method", PyStr "list_msgs");
            ("params", PyList [PyStr "chan"; PyInt 0; PyInt 10]);
            ("id", PyInt 1)]
           "list_msgs" [PyStr "chan"; PyInt 0; PyInt 10] [] sample_state).
  - reflexivity.
  - reflexivity.
  - reflexivity.
  - right. split; [reflexivity | cbn; lia].
Defined.




Lemma params_must_be_indexable_witness :
  backport_old_client (env := sample)
    [q "{'method': 'view_msg', 'params': {'channelname': 'chan'}, 'id': 1}"]
    sample_state =
  (Raise (KeyError (PyInt 0)),
   with_ws (rpc (Some (PyDict [("params",
                                PyDict [("channelname", PyStr "chan")]);
                               ("id", PyInt 1)])) []) sample_state).
Proof.
  exact (params_must_be_indexable (env := sample)
    (q "{'method': 'view_msg', 'params': {'channelname': 'chan'}, 'id': 1}")
    [("method", PyStr "view_msg");
     ("params", PyDict [("channelname", PyStr "chan")]); ("id", PyInt 1)]
    (PyStr "view_msg") (PyDict [("channelname", PyStr "chan")]) []
    sample_state eq_refl eq_refl eq_refl).
Defined.
